(** * process_video.py: the per-frame "film look" pipeline and its two masks

    A shallow embedding of [make_scanline_image], [make_vignette_mask],
    [frame_effect_factory] and its closure [effect], followed by the
    properties of the pipeline that the specification states.

    Layout of the development:
    - [Arith]: the floating-point operations the script uses, as an interface
      with two implementations: [IEEE] (bit-exact binary64/binary32, built on
      the Standard Library's [SpecFloat], and executable) and [Real] (the
      same formulas over the real numbers, for statements quantified over
      every size and every strength);
    - [Numpy]: the array primitives ([roll], [clip], [stack], casts);
    - [Pillow]: the image-library calls, as a class of operations;
    - the functions of the script, written once over [Arith] and [Pillow];
    - a store of Python objects, and [effect] as a program over it. *)

From Stdlib Require Import String.
From Stdlib Require Import ZArith List Bool Lia Reals Lra QArith Qround Qminmax.
From Stdlib Require Import Permutation.
From Stdlib Require Import SpecFloat.
Import ListNotations.

Local Open Scope Z_scope.

(* ================================================================== *)
(** * Outcomes of a Python call *)

Inductive exn : Type :=
| ValueError (msg : string)
| OverflowError (msg : string).

(** A call returns, raises, or is still running when the fuel of a loop
    is used up. *)
Inductive outcome (A : Type) : Type :=
| Returns (a : A)
| Raises (e : exn)
| OutOfFuel.

Arguments Returns {A} a.
Arguments Raises {A} e.
Arguments OutOfFuel {A}.

Definition obind {A B} (o : outcome A) (k : A -> outcome B) : outcome B :=
  match o with
  | Returns a => k a
  | Raises e => Raises e
  | OutOfFuel => OutOfFuel
  end.

Notation "x <- c ;; k" := (obind c (fun x => k))
  (at level 61, c at next level, right associativity).

(* ================================================================== *)
(** * Floating-point arithmetic *)

(** The operations of Python/NumPy floats used by the script.  [num] carries
    both float64 and float32 values; the 32-bit operations round to single
    precision. *)
Record Arith : Type := MkArith {
  num : Type;
  (** an integer converted to a float (exact for the magnitudes used) *)
  of_int : Z -> num;
  (** the decimal literal [n/d], as the parser rounds it *)
  literal : Z -> positive -> num;
  (** float64 *)
  fadd : num -> num -> num;
  fsub : num -> num -> num;
  fmul : num -> num -> num;
  fdiv : num -> num -> num;
  fsqrt : num -> num;
  (** float32 *)
  to_f32 : num -> num;
  fmul32 : num -> num -> num;
  fdiv32 : num -> num -> num;
  (** comparison [x < y]; false when either side is not a number *)
  fltb : num -> num -> bool;
  (** Python's [int(x)]: truncation toward zero; raises on NaN and on the
      infinities *)
  to_int : num -> outcome Z
}.

Existing Class Arith.

Arguments of_int {F} _ : rename.
Arguments literal {F} _ _ : rename.
Arguments fadd {F} _ _ : rename.
Arguments fsub {F} _ _ : rename.
Arguments fmul {F} _ _ : rename.
Arguments fdiv {F} _ _ : rename.
Arguments fsqrt {F} _ : rename.
Arguments to_f32 {F} _ : rename.
Arguments fmul32 {F} _ _ : rename.
Arguments fdiv32 {F} _ _ : rename.
Arguments fltb {F} _ _ : rename.
Arguments to_int {F} _ : rename.

Module IEEE754.

Definition prec64 : Z := 53.
Definition emax64 : Z := 1024.
Definition prec32 : Z := 24.
Definition emax32 : Z := 128.

Definition b64_of_Z (z : Z) : spec_float :=
  binary_normalize prec64 emax64 z 0 false.

Definition b64_literal (n : Z) (d : positive) : spec_float :=
  SFdiv prec64 emax64 (b64_of_Z n) (b64_of_Z (Zpos d)).

(** float64 -> float32, round to nearest even *)
Definition round32 (x : spec_float) : spec_float :=
  match x with
  | S754_finite s m e =>
      binary_normalize prec32 emax32 (cond_Zopp s (Zpos m)) e s
  | _ => x
  end.

Definition trunc (x : spec_float) : outcome Z :=
  match x with
  | S754_zero _ => Returns 0
  | S754_finite s m e =>
      let mag := if 0 <=? e then Z.shiftl (Zpos m) e
                 else Z.shiftr (Zpos m) (- e) in
      Returns (cond_Zopp s mag)
  | S754_infinity _ =>
      Raises (OverflowError "cannot convert float infinity to integer")
  | S754_nan => Raises (ValueError "cannot convert float NaN to integer")
  end.

End IEEE754.

(** Bit-exact floats. *)
Definition IEEE : Arith := {|
  num := spec_float;
  of_int := IEEE754.b64_of_Z;
  literal := IEEE754.b64_literal;
  fadd := SFadd IEEE754.prec64 IEEE754.emax64;
  fsub := SFsub IEEE754.prec64 IEEE754.emax64;
  fmul := SFmul IEEE754.prec64 IEEE754.emax64;
  fdiv := SFdiv IEEE754.prec64 IEEE754.emax64;
  fsqrt := SFsqrt IEEE754.prec64 IEEE754.emax64;
  to_f32 := IEEE754.round32;
  fmul32 := SFmul IEEE754.prec32 IEEE754.emax32;
  fdiv32 := SFdiv IEEE754.prec32 IEEE754.emax32;
  fltb := SFltb;
  to_int := IEEE754.trunc
|}.

Module RealArith.

Definition ltb (x y : R) : bool := if Rlt_dec x y then true else false.

(** truncation toward zero *)
Definition trunc (x : R) : Z :=
  if Rle_dec 0 x then Zfloor x else Zceil x.

End RealArith.

(** The same operations without rounding. *)
Definition Real : Arith := {|
  num := R;
  of_int := IZR;
  literal := fun n d => (IZR n / IZR (Zpos d))%R;
  fadd := Rplus;
  fsub := Rminus;
  fmul := Rmult;
  fdiv := Rdiv;
  fsqrt := sqrt;
  to_f32 := fun x => x;
  fmul32 := Rmult;
  fdiv32 := Rdiv;
  fltb := RealArith.ltb;
  to_int := fun x => Returns (RealArith.trunc x)
|}.


(* ================================================================== *)
(** * Arrays and pixels *)

(** An H x W array is a list of H rows of W entries; an H x W x 3 (or x 4)
    array is an H x W array of pixels. *)
Definition array2 (A : Type) : Type := list (list A).

Record px3 (A : Type) : Type := Px3 { ch0 : A; ch1 : A; ch2 : A }.
Record px4 (A : Type) : Type := Px4 { rd : A; gr : A; bl : A; al : A }.

Arguments Px3 {A} _ _ _.
Arguments ch0 {A} _.
Arguments ch1 {A} _.
Arguments ch2 {A} _.
Arguments Px4 {A} _ _ _ _.
Arguments rd {A} _.
Arguments gr {A} _.
Arguments bl {A} _.
Arguments al {A} _.

Definition px3_map {A B} (f : A -> B) (p : px3 A) : px3 B :=
  Px3 (f (ch0 p)) (f (ch1 p)) (f (ch2 p)).

Definition px3_map2 {A B C} (f : A -> B -> C) (p : px3 A) (q : px3 B) : px3 C :=
  Px3 (f (ch0 p) (ch0 q)) (f (ch1 p) (ch1 q)) (f (ch2 p) (ch2 q)).

Definition px3_all {A} (P : A -> Prop) (p : px3 A) : Prop :=
  P (ch0 p) /\ P (ch1 p) /\ P (ch2 p).

Definition px4_all {A} (P : A -> Prop) (p : px4 A) : Prop :=
  P (rd p) /\ P (gr p) /\ P (bl p) /\ P (al p).

Fixpoint map2 {A B C} (f : A -> B -> C) (l1 : list A) (l2 : list B) : list C :=
  match l1, l2 with
  | a :: l1', b :: l2' => f a b :: map2 f l1' l2'
  | _, _ => []
  end.

Fixpoint map3 {A B C D} (f : A -> B -> C -> D)
    (l1 : list A) (l2 : list B) (l3 : list C) : list D :=
  match l1, l2, l3 with
  | a :: l1', b :: l2', c :: l3' => f a b c :: map3 f l1' l2' l3'
  | _, _, _ => []
  end.

(** [f] applied to every entry together with its index, counted from [i] *)
Fixpoint imap_from {A B} (i : Z) (f : Z -> A -> B) (l : list A) : list B :=
  match l with
  | [] => []
  | a :: l' => f i a :: imap_from (i + 1) f l'
  end.

Definition amap {A B} (f : A -> B) (a : array2 A) : array2 B := map (map f) a.

Definition amap2 {A B C} (f : A -> B -> C) (a : array2 A) (b : array2 B)
  : array2 C := map2 (map2 f) a b.

(** entry at row [y], column [x] *)
Definition at2 {A} (a : array2 A) (y x : nat) : option A :=
  match nth_error a y with
  | Some row => nth_error row x
  | None => None
  end.

(** [a] has [h] rows of [w] entries each *)
Definition shape2 {A} (a : array2 A) (h w : nat) : Prop :=
  length a = h /\ Forall (fun row => length row = w) a.

Definition all2 {A} (P : A -> Prop) (a : array2 A) : Prop :=
  Forall (Forall P) a.

Definition is_u8 (v : Z) : Prop := 0 <= v <= 255.

(* ================================================================== *)
(** * NumPy primitives *)

Module Numpy.

(** [np.arange(n)], the coordinates behind [np.ogrid[0:n]] *)
Definition arange (n : Z) : list Z := map Z.of_nat (seq 0 (Z.to_nat n)).

(** [np.roll(row, shift)] along one axis: NumPy reduces the shift modulo
    the length ([offset %= n or 1]) and copies the two slices
    [result[offset:] = row[:n-offset]] and [result[:offset] = row[n-offset:]]. *)
Definition roll {A} (shift : Z) (row : list A) : list A :=
  let n := Z.of_nat (length row) in
  let offset := shift mod (if n =? 0 then 1 else n) in
  let k := Z.to_nat (n - offset) in
  skipn k row ++ firstn k row.

(** [np.roll(a, shift, axis=1)] on an H x W array *)
Definition roll_axis1 {A} (shift : Z) (a : array2 A) : array2 A :=
  map (roll shift) a.

(** [np.stack([r, g, b], axis=2)] *)
Definition stack_axis2 {A} (r g b : array2 A) : array2 (px3 A) :=
  map3 (map3 Px3) r g b.

(** [np.dstack([v, v, v])] *)
Definition dstack3 {A} (v : array2 A) : array2 (px3 A) :=
  amap (fun x => Px3 x x x) v.

(** two's-complement wrap of an int16 result *)
Definition wrap16 (z : Z) : Z := (z + 32768) mod 65536 - 32768.

(** [np.clip] on integers *)
Definition clip_int (v lo hi : Z) : Z := Z.min (Z.max v lo) hi.

(** [astype(np.uint8)] of an integer: the low 8 bits *)
Definition uint8_of_int (z : Z) : Z := z mod 256.

Section Floats.
Context {F : Arith}.

(** [np.maximum] and [np.minimum] with a bound as second operand: a NaN
    first operand comes through *)
Definition maximum (a b : num F) : num F := if fltb a b then b else a.
Definition minimum (a b : num F) : num F := if fltb b a then b else a.

(** [np.clip(x, lo, hi)] *)
Definition clip (x lo hi : num F) : num F := minimum (maximum x lo) hi.

(** [astype(np.uint8)] of a float: truncation toward zero, then the low
    8 bits; the cast of a NaN or an infinity is not defined by NumPy and
    is taken as 0 here (it raises nothing). *)
Definition uint8_of_float (x : num F) : Z :=
  match to_int x with
  | Returns z => z mod 256
  | _ => 0
  end.
End Floats.

End Numpy.

(* ================================================================== *)
(** * Pillow *)

(** 8-bit images: mode "RGB" and mode "RGBA". *)
Definition image_rgb : Type := array2 (px3 Z).
Definition image_rgba : Type := array2 (px4 Z).

Definition rgb_u8 (im : image_rgb) : Prop := all2 (px3_all is_u8) im.
Definition rgba_u8 (im : image_rgba) : Prop := all2 (px4_all is_u8) im.

(** The calls into the image library whose code is not part of the script:
    the fill colour conversion of [Image.new] and [ImageDraw], the two
    filters and the compositing of two RGBA images of one size. *)
Class Pillow : Type := {
  (** one channel of a fill colour, as stored in an 8-bit image *)
  getink : Z -> Z;
  (** [im.filter(ImageFilter.GaussianBlur(radius))] *)
  GaussianBlur : Q -> image_rgba -> image_rgba;
  (** [im.filter(ImageFilter.UnsharpMask(radius, percent, threshold))] *)
  UnsharpMask : Z -> Z -> Z -> image_rgb -> image_rgb;
  (** [Image.alpha_composite(dst, src)]: [src] over [dst] *)
  alpha_composite : image_rgba -> image_rgba -> image_rgba
}.

(** What the properties below rely on: a colour channel that fits 8 bits is
    stored as it is, and the filters and the compositing keep the size of
    the image and its 8-bit samples. *)
Class PillowLaws (P : Pillow) : Prop := {
  getink_u8 : forall v, is_u8 v -> getink v = v;
  getink_range : forall v, is_u8 (getink v);
  GaussianBlur_shape : forall r im h w,
    shape2 im h w -> shape2 (GaussianBlur r im) h w;
  UnsharpMask_shape : forall r p t im h w,
    shape2 im h w -> shape2 (UnsharpMask r p t im) h w;
  UnsharpMask_u8 : forall r p t im,
    rgb_u8 im -> rgb_u8 (UnsharpMask r p t im);
  alpha_composite_shape : forall dst src h w,
    shape2 dst h w -> shape2 src h w -> shape2 (alpha_composite dst src) h w;
  alpha_composite_u8 : forall dst src,
    rgba_u8 dst -> rgba_u8 (alpha_composite dst src)
}.

Module PIL.
Section WithPillow.
Context {P : Pillow}.

Definition ink (c : px4 Z) : px4 Z :=
  Px4 (getink (rd c)) (getink (gr c)) (getink (bl c)) (getink (al c)).

(** [Image.new("RGBA", (w, h), color)] *)
Definition Image_new (w h : Z) (color : px4 Z) : outcome image_rgba :=
  if (w <? 0) || (h <? 0)
  then Raises (ValueError "Width and height must be >= 0")
  else Returns (repeat (repeat (ink color) (Z.to_nat w)) (Z.to_nat h)).

(** [ImageDraw.Draw(img).rectangle([x0, y0, x1, y1], fill=color)]: both
    corners belong to the rectangle, and the part outside the image is
    not drawn.  A box with [y1 < y0] or [x1 < x0] draws nothing here;
    the script passes none when [line_height >= 1]. *)
Definition rectangle (x0 y0 x1 y1 : Z) (color : px4 Z) (img : image_rgba)
  : image_rgba :=
  imap_from 0 (fun y row =>
    imap_from 0 (fun x p =>
      if (x0 <=? x) && (x <=? x1) && (y0 <=? y) && (y <=? y1)
      then ink color else p) row) img.

(** [im.convert("RGBA")] of an RGB image: an opaque alpha channel *)
Definition convert_RGBA (im : image_rgb) : image_rgba :=
  amap (fun p => Px4 (ch0 p) (ch1 p) (ch2 p) 255) im.

(** [im.convert("RGB")] of an RGBA image: the alpha channel is dropped *)
Definition convert_RGB (im : image_rgba) : image_rgb :=
  amap (fun p => Px3 (rd p) (gr p) (bl p)) im.

End WithPillow.
End PIL.

(* ================================================================== *)
(** * The script *)

Section Script.
Context {F : Arith} {P : Pillow}.

(** ** make_scanline_image *)

(** One test of the [while y < h] loop (lines 29-31) on the state
    [(y, img)]: [None] when the loop exits. *)
Definition scanline_step (w h line_height gap alpha_line : Z)
    (st : Z * image_rgba) : option (Z * image_rgba) :=
  let (y, img) := st in
  if y <? h then
    Some (y + (line_height + gap),
          PIL.rectangle 0 y w (Z.min h (y + line_height - 1))
                        (Px4 0 0 0 alpha_line) img)
  else None.

(** The loop, run for at most [fuel] tests; it returns the state in which
    the test [y < h] fails. *)
Fixpoint scanline_loop (fuel : nat) (w h line_height gap alpha_line : Z)
    (st : Z * image_rgba) : outcome (Z * image_rgba) :=
  match fuel with
  | O => OutOfFuel
  | S fuel' =>
      match scanline_step w h line_height gap alpha_line st with
      | Some st' => scanline_loop fuel' w h line_height gap alpha_line st'
      | None => Returns st
      end
  end.

(** Lines 25-31: the image before the blur. *)
Definition scanline_canvas (fuel : nat) (w h : Z) (intensity : num F)
    (line_height gap : Z) : outcome image_rgba :=
  img <- PIL.Image_new w h (Px4 0 0 0 0) ;;
  alpha_line <- to_int (fmul (of_int 255) intensity) ;;
  st <- scanline_loop fuel w h line_height gap alpha_line (0, img) ;;
  Returns (snd st).

(** Lines 18-34. *)
Definition make_scanline_image (fuel : nat) (w h : Z) (intensity : num F)
    (line_height gap : Z) : outcome image_rgba :=
  img <- scanline_canvas fuel w h intensity line_height gap ;;
  Returns (GaussianBlur (1 # 2) img).

(** ** make_vignette_mask *)

(** Lines 41 and 44 at column [x] of row [y]; NumPy computes the squares
    [(X - cx)**2] and [(Y - cy)**2] as products. *)
Definition vignette_dist (w h x y : Z) : num F :=
  let cx := fdiv (of_int w) (literal 2 1) in
  let cy := fdiv (of_int h) (literal 2 1) in
  let dx := fsub (of_int x) cx in
  let dy := fsub (of_int y) cy in
  fsqrt (fadd (fmul dx dx) (fmul dy dy)).

(** Lines 41-42. *)
Definition vignette_max_dist (w h : Z) : num F :=
  let cx := fdiv (of_int w) (literal 2 1) in
  let cy := fdiv (of_int h) (literal 2 1) in
  fsqrt (fadd (fmul cx cx) (fmul cy cy)).

(** Lines 36-49. *)
Definition make_vignette_mask (w h : Z) (strength : num F)
    : array2 (px3 (num F)) :=
  let max_dist := vignette_max_dist w h in
  let Y := Numpy.arange h in
  let X := Numpy.arange w in
  let dist := map (fun y => map (fun x => vignette_dist w h x y) X) Y in
  let vign :=
    amap (fun d => fsub (literal 1 1) (fmul strength (fdiv d max_dist)))
         dist in
  let vign := amap (fun v => Numpy.clip v (literal 0 1) (literal 1 1)) vign in
  amap (px3_map to_f32) (Numpy.dstack3 vign).

(** ** frame_effect_factory and effect *)

(** What the closure [effect] captures. *)
Record pipeline : Type := {
  width : Z;
  scanline_img : image_rgba;
  vignette : array2 (px3 (num F))
}.

(** Lines 60-61 and 100. *)
Definition frame_effect_factory (fuel : nat) (width height : Z)
    : outcome pipeline :=
  scan <- make_scanline_image fuel width height (literal 8 100) 1 2 ;;
  Returns {| width := width;
             scanline_img := scan;
             vignette := make_vignette_mask width height (literal 45 100) |}.

(** The stages of [effect].  Two arrays are combined entry by entry; the
    properties below are about frames, noise and masks of one size, on
    which NumPy does the same. *)
Section Stages.
Variable pl : pipeline.

(** line 65: [frame.astype(np.int16)] *)
Definition astype_int16 (frame : image_rgb) : image_rgb :=
  amap (px3_map Numpy.wrap16) frame.

(** line 68 *)
Definition shift : Z := Z.max 1 (width pl / 640 * 2).

(** lines 69-72 *)
Definition chromatic_aberration (img : image_rgb) : image_rgb :=
  let r := Numpy.roll_axis1 (- shift) (amap ch0 img) in
  let g := amap ch1 img in
  let b := Numpy.roll_axis1 shift (amap ch2 img) in
  amap (px3_map Numpy.wrap16) (Numpy.stack_axis2 r g b).

(** line 75 on one sample: [128 + 1.06 * (v - 128) + 4], the subtraction
    in int16 and the rest in float64 *)
Definition contrast_value (v : Z) : num F :=
  fadd (fadd (of_int 128)
             (fmul (literal 106 100) (of_int (Numpy.wrap16 (v - 128)))))
       (of_int 4).

(** line 75 *)
Definition gain_bias (combined : image_rgb) : array2 (px3 (num F)) :=
  amap (px3_map contrast_value) combined.

(** [np.clip(a, 0, 255).astype(np.uint8)] on a float array whose bounds
    are [lo] and [hi] in the precision of the array *)
Definition clip_uint8 (lo hi : num F) (a : array2 (px3 (num F)))
  : image_rgb :=
  amap (px3_map (fun x => Numpy.uint8_of_float (Numpy.clip x lo hi))) a.

(** lines 75-76 *)
Definition contrast_brightness (combined : image_rgb) : image_rgb :=
  clip_uint8 (of_int 0) (of_int 255) (gain_bias combined).

(** line 81 on one sample; [n] is the noise sample after its cast to
    int16 *)
Definition grain_sample (c n : Z) : Z :=
  Numpy.uint8_of_int
    (Numpy.clip_int (Numpy.wrap16 (Numpy.wrap16 c + n)) 0 255).

(** lines 79-81; [noise] is the array drawn by [np.random.normal],
    cast to int16 *)
Definition film_grain (noise : image_rgb) (combined : image_rgb)
  : image_rgb :=
  amap2 (px3_map2 grain_sample) combined noise.

(** lines 84-85 *)
Definition sharpen (combined : image_rgb) : image_rgb :=
  UnsharpMask 1 120 3 combined.

(** lines 88-91 *)
Definition overlay_scanlines (pil : image_rgb) : image_rgb :=
  let scan := scanline_img pl in
  let base_rgba := PIL.convert_RGBA pil in
  PIL.convert_RGB (alpha_composite base_rgba scan).

(** [255.0] next to a float32 array *)
Definition c255_f32 : num F := to_f32 (literal 255 1).

(** line 94: [np.asarray(pil2).astype(np.float32) / 255.0] *)
Definition normalize (pil2 : image_rgb) : array2 (px3 (num F)) :=
  amap (px3_map (fun p => fdiv32 (to_f32 (of_int p)) c255_f32)) pil2.

(** line 95: [arr * vignette] *)
Definition multiply (arr mask : array2 (px3 (num F)))
  : array2 (px3 (num F)) :=
  amap2 (px3_map2 fmul32) arr mask.

(** line 96: [np.clip(arr * 255.0, 0, 255).astype(np.uint8)] *)
Definition denormalize (arr : array2 (px3 (num F))) : image_rgb :=
  clip_uint8 (to_f32 (of_int 0)) (to_f32 (of_int 255))
             (amap (px3_map (fun x => fmul32 x c255_f32)) arr).

(** lines 94-96 *)
Definition apply_vignette (pil2 : image_rgb) : image_rgb :=
  denormalize (multiply (normalize pil2) (vignette pl)).

(** The six results of [effect], in the order they are computed. *)
Record stages : Type := {
  st_shift : image_rgb;
  st_contrast : image_rgb;
  st_grain : image_rgb;
  st_sharpen : image_rgb;
  st_scanlines : image_rgb;
  st_vignette : image_rgb
}.

Definition effect_stages (noise frame : image_rgb) : stages :=
  let s1 := chromatic_aberration (astype_int16 frame) in
  let s2 := contrast_brightness s1 in
  let s3 := film_grain noise s2 in
  let s4 := sharpen s3 in
  let s5 := overlay_scanlines s4 in
  {| st_shift := s1; st_contrast := s2; st_grain := s3;
     st_sharpen := s4; st_scanlines := s5;
     st_vignette := apply_vignette s5 |}.

(** The value [effect(frame)] returns. *)
Definition effect (noise frame : image_rgb) : image_rgb :=
  st_vignette (effect_stages noise frame).

End Stages.

(** ** The same samples, one at a time *)

(** lines 75-76 on one sample *)
Definition contrast_sample (v : Z) : Z :=
  Numpy.uint8_of_float
    (Numpy.clip (contrast_value v) (of_int 0) (of_int 255)).

(** lines 94-96 on one sample [p] under the mask value [v] *)
Definition vignette_sample (p : Z) (v : num F) : Z :=
  Numpy.uint8_of_float
    (Numpy.clip
       (fmul32 (fmul32 (fdiv32 (to_f32 (of_int p)) c255_f32) v) c255_f32)
       (to_f32 (of_int 0)) (to_f32 (of_int 255))).

End Script.

(* ================================================================== *)
(** * The store of Python objects *)

(** [effect] as the interpreter runs it: every array and image is an object
    in a store, a name holds a reference, each NumPy or Pillow call that
    builds a result allocates a fresh object, and
    [base_rgba.alpha_composite(scan)] overwrites the object it is called on.
    Slices such as [img[:, :, 0]] are read where they are used. *)
Section Store.
Context {F : Arith} {P : Pillow}.

Inductive obj : Type :=
| Ndarray (a : image_rgb)                (* integer ndarray, H x W x 3 *)
| Plane (a : array2 Z)                   (* integer ndarray, H x W *)
| NdarrayF (a : array2 (px3 (num F)))    (* float ndarray, H x W x 3 *)
| ImageRGB (im : image_rgb)
| ImageRGBA (im : image_rgba).

Definition loc : Type := nat.
Definition store : Type := list obj.

(** A step fails ([None]) on a reference that holds no object of the
    expected kind. *)
Definition M (A : Type) : Type := store -> option (A * store).

Definition ret {A} (a : A) : M A := fun s => Some (a, s).

Definition bind {A B} (m : M A) (k : A -> M B) : M B :=
  fun s => match m s with
           | Some (a, s') => k a s'
           | None => None
           end.

Definition alloc (o : obj) : M loc :=
  fun s => Some (List.length s, s ++ [o]).

Definition deref (l : loc) : M obj :=
  fun s => match nth_error s l with
           | Some o => Some (o, s)
           | None => None
           end.

Fixpoint update (l : loc) (o : obj) (s : store) : store :=
  match s, l with
  | [], _ => []
  | _ :: s', O => o :: s'
  | x :: s', S l' => x :: update l' o s'
  end.

Definition assign (l : loc) (o : obj) : M unit :=
  fun s => match nth_error s l with
           | Some _ => Some (tt, update l o s)
           | None => None
           end.

Definition fail {A} : M A := fun _ => None.

Definition get_ndarray (l : loc) : M image_rgb :=
  bind (deref l) (fun o => match o with Ndarray a => ret a | _ => fail end).
Definition get_plane (l : loc) : M (array2 Z) :=
  bind (deref l) (fun o => match o with Plane a => ret a | _ => fail end).
Definition get_ndarrayF (l : loc) : M (array2 (px3 (num F))) :=
  bind (deref l) (fun o => match o with NdarrayF a => ret a | _ => fail end).
Definition get_rgb (l : loc) : M image_rgb :=
  bind (deref l) (fun o => match o with ImageRGB a => ret a | _ => fail end).
Definition get_rgba (l : loc) : M image_rgba :=
  bind (deref l) (fun o => match o with ImageRGBA a => ret a | _ => fail end).

End Store.

Notation "x <~ c ;; k" := (bind c (fun x => k))
  (at level 61, c at next level, right associativity).

Section EffectProgram.
Context {F : Arith} {P : Pillow}.

(** The references the closure holds, and its [width]. *)
Record closure : Type := {
  cl_width : Z;
  cl_scanline_img : loc;
  cl_vignette : loc
}.

Definition cl_shift (cl : closure) : Z := Z.max 1 (cl_width cl / 640 * 2).

(** Lines 63-98; [noise] is the value of the [np.random.normal] draw. *)
Definition effect_program (cl : closure) (noise : image_rgb) (frame : loc)
    : M (F := F) loc :=
  (* 65 *)
  a <~ get_ndarray frame ;;
  img <~ alloc (Ndarray (astype_int16 a)) ;;
  (* 69 *)
  a <~ get_ndarray img ;;
  r <~ alloc (Plane (Numpy.roll_axis1 (- cl_shift cl) (amap ch0 a))) ;;
  (* 70 *)
  a <~ get_ndarray img ;;
  g <~ alloc (Plane (amap ch1 a)) ;;
  (* 71 *)
  a <~ get_ndarray img ;;
  b <~ alloc (Plane (Numpy.roll_axis1 (cl_shift cl) (amap ch2 a))) ;;
  (* 72 *)
  pr <~ get_plane r ;;
  pg <~ get_plane g ;;
  pb <~ get_plane b ;;
  combined <~ alloc (Ndarray (amap (px3_map Numpy.wrap16)
                                   (Numpy.stack_axis2 pr pg pb))) ;;
  (* 75 *)
  a <~ get_ndarray combined ;;
  combined <~ alloc (NdarrayF (gain_bias a)) ;;
  (* 76 *)
  a <~ get_ndarrayF combined ;;
  combined <~ alloc (Ndarray (clip_uint8 (of_int 0) (of_int 255) a)) ;;
  (* 80 *)
  noise <~ alloc (Ndarray noise) ;;
  (* 81 *)
  a <~ get_ndarray combined ;;
  n <~ get_ndarray noise ;;
  combined <~ alloc (Ndarray (film_grain n a)) ;;
  (* 84 *)
  a <~ get_ndarray combined ;;
  pil <~ alloc (ImageRGB a) ;;
  (* 85 *)
  a <~ get_rgb pil ;;
  pil <~ alloc (ImageRGB (sharpen a)) ;;
  (* 88 *)
  a <~ get_rgba (cl_scanline_img cl) ;;
  scan <~ alloc (ImageRGBA a) ;;
  (* 89 *)
  a <~ get_rgb pil ;;
  base_rgba <~ alloc (ImageRGBA (PIL.convert_RGBA a)) ;;
  (* 90: in place *)
  dst <~ get_rgba base_rgba ;;
  src <~ get_rgba scan ;;
  _ <~ assign base_rgba (ImageRGBA (alpha_composite dst src)) ;;
  (* 91 *)
  a <~ get_rgba base_rgba ;;
  pil2 <~ alloc (ImageRGB (PIL.convert_RGB a)) ;;
  (* 94 *)
  a <~ get_rgb pil2 ;;
  arr <~ alloc (NdarrayF (normalize a)) ;;
  (* 95 *)
  a <~ get_ndarrayF arr ;;
  v <~ get_ndarrayF (cl_vignette cl) ;;
  arr <~ alloc (NdarrayF (multiply a v)) ;;
  (* 96 *)
  a <~ get_ndarrayF arr ;;
  arr <~ alloc (Ndarray (denormalize a)) ;;
  (* 98 *)
  ret arr.

End EffectProgram.

(** The array of [h] rows and [w] columns whose every entry is [v]. *)
Definition uniform_rows {A} (v : A) (h w : nat) : array2 A :=
  repeat (repeat v w) h.

(* ================================================================== *)
(** * The driver *)

(** Line 106. *)
Definition target_w : Z := 1280.

(** Lines 107-110 and 117: the width [process] hands to
    [frame_effect_factory] for a clip of width [clip_w];
    [clip.resize(width=target_w)] gives a clip of width [target_w]. *)
Definition process_width (clip_w : Z) : Z :=
  if clip_w >? target_w then target_w else clip_w.

(** A frame's worth of zero noise, and a float32 mask of ones. *)
Definition zero_noise (h w : nat) : image_rgb := uniform_rows (Px3 0 0 0) h w.

Definition ones_mask {F : Arith} (h w : nat) : array2 (px3 (num F)) :=
  let one := to_f32 (literal 1 1) in uniform_rows (Px3 one one one) h w.

(* ================================================================== *)
(** * The specification's formulas *)

(** The formulas as the specification words them, over exact rationals and
    reals; the theorems below compare the code with them. *)
Module Spec.

Definition clampQ (x lo hi : Q) : Q := Qmin (Qmax x lo) hi.

(** truncation toward zero *)
Definition Qtrunc (q : Q) : Z := Z.quot (Qnum q) (Zpos (Qden q)).


(** [clamp(128 + 1.06 * (v - 128) + 4, 0, 255)] truncated *)
Definition contrast (v : Z) : Z :=
  Qtrunc (clampQ (128 + (106 # 100) * (inject_Z v - 128) + 4)%Q 0%Q 255%Q).


Definition clampR (x lo hi : R) : R := Rmin (Rmax x lo) hi.

Definition dist (x1 y1 x2 y2 : R) : R :=
  sqrt ((x1 - x2) * (x1 - x2) + (y1 - y2) * (y1 - y2)).

(** [clamp(1 - strength * (dist((x,y), (w/2,h/2)) / sqrt((w/2)^2 + (h/2)^2)), 0, 1)] *)
Definition vignette (w h : Z) (strength : R) (x y : Z) : R :=
  let cx := (IZR w / 2)%R in
  let cy := (IZR h / 2)%R in
  clampR (1 - strength * (dist (IZR x) (IZR y) cx cy
                          / sqrt (cx * cx + cy * cy)))%R 0%R 1%R.

End Spec.

(** The frame of [h] rows and [w] columns whose every sample is [v]. *)
Definition uniform_frame (v : Z) (h w : nat) : image_rgb :=
  repeat (repeat (Px3 v v v) w) h.

(** An implementation of the Pillow operations with the two filters and the
    overlay switched off, and fill colours clipped to 8 bits. *)
Definition plain_pillow : Pillow := {|
  getink := fun v => Numpy.clip_int v 0 255;
  GaussianBlur := fun _ im => im;
  UnsharpMask := fun _ _ _ im => im;
  alpha_composite := fun dst _ => dst
|}.

(** Small inputs on which the theorems below are instantiated. *)
Module Demo.

Definition frame : image_rgb :=
  [[Px3 10 20 30; Px3 11 21 31; Px3 12 22 32; Px3 13 23 33]].

Definition noise : image_rgb :=
  [[Px3 3 (-7) 0; Px3 (-200) 400 1; Px3 0 0 0; Px3 32767 (-32768) 5]].

Definition scan : image_rgba :=
  [[Px4 0 0 0 20; Px4 0 0 0 20; Px4 0 0 0 20; Px4 0 0 0 20]].

Definition pipeline_of {F : Arith} (v : array2 (px3 (num F)))
  : pipeline (F := F) :=
  {| width := 4; scanline_img := scan; vignette := v |}.

Definition mask {F : Arith} : array2 (px3 (num F)) :=
  make_vignette_mask 4 1 (literal 45 100).

(** a store with the frame, the scanline image and the mask *)
Definition store0 : store (F := IEEE) :=
  [Ndarray frame; ImageRGBA scan; NdarrayF mask].

Definition closure0 : closure :=
  {| cl_width := 4; cl_scanline_img := 1%nat; cl_vignette := 2%nat |}.

(** what the factory returns for a clip 1920 wide and, to keep it small,
    one row high, once [process] has reduced the width *)
Definition factory_1080p : pipeline (F := IEEE) :=
  {| width := 1280;
     scanline_img :=
       GaussianBlur (Pillow := plain_pillow) (1 # 2)
         [repeat (Px4 0 0 0 20) 1280];
     vignette := make_vignette_mask 1280 1 (literal 45 100) |}.

End Demo.

(** The pipeline that only darkens: a vignette of strength 0.5 for frames of
    100 x 100 pixels. *)
Definition white_vignette_only : pipeline (F := IEEE) :=
  {| width := 100;
     scanline_img := [];
     vignette := make_vignette_mask 100 100 (literal 1 2) |}.


(** The pixel of the scanline image in a band ([filled]) and outside. *)
Definition scan_pixel {P : Pillow} (alpha_line : Z) (filled : bool) : px4 Z :=
  if filled then PIL.ink (Px4 0 0 0 alpha_line) else PIL.ink (Px4 0 0 0 0).

(** The state of the scanline loop when its row offset is [y]: [y] is a
    multiple of the period, and of the rows below [y] those among the first
    [line_height] of their period are filled. *)
Definition scan_bands_upto {P : Pillow} (w h line_height gap alpha_line : Z)
    (y : Z) (img : image_rgba) : Prop :=
  (exists k, 0 <= k /\ y = k * (line_height + gap)) /\
  shape2 img (Z.to_nat h) (Z.to_nat w) /\
  forall r x : nat, (r < Z.to_nat h)%nat -> (x < Z.to_nat w)%nat ->
    at2 img r x
    = Some (scan_pixel alpha_line
              ((Z.of_nat r <? y)
               && (Z.of_nat r mod (line_height + gap) <? line_height))).

(** The pixels [(x, y)] of a [w] x [h] image. *)
Definition pixels (w h : Z) : list (Z * Z) :=
  flat_map (fun y => map (fun x => (x, y)) (Numpy.arange w)) (Numpy.arange h).

(** Four times the squared distance of pixel [(x, y)] from [(w/2, h/2)]. *)
Definition dist2_x4 (w h : Z) (p : Z * Z) : Z :=
  (2 * fst p - w) * (2 * fst p - w) + (2 * snd p - h) * (2 * snd p - h).

(** The mask value of [make_vignette_mask] at column [x] of row [y]. *)
Definition vignette_value {F : Arith} (w h : Z) (strength : num F) (x y : Z)
  : num F :=
  to_f32
    (Numpy.clip
       (fsub (literal 1 1)
             (fmul strength
                   (fdiv (vignette_dist w h x y) (vignette_max_dist w h))))
       (literal 0 1) (literal 1 1)).

(* ================================================================== *)
(** * The model on concrete values *)

Example roll_right : Numpy.roll 1 [1; 2; 3; 4] = [4; 1; 2; 3].
Proof. reflexivity. Qed.

Example roll_left : Numpy.roll (-1) [1; 2; 3; 4] = [2; 3; 4; 1].
Proof. reflexivity. Qed.

Example roll_wraps : Numpy.roll 6 [1; 2; 3; 4] = [3; 4; 1; 2].
Proof. reflexivity. Qed.

(** [1.06] is the double 0x1.0f5c28f5c28f6p+0. *)
Example literal_1_06 :
  literal (F := IEEE) 106 100 = S754_finite false 4773815605012726 (-52).
Proof. vm_compute. reflexivity. Qed.

Example contrast_samples :
  map (contrast_sample (F := IEEE)) [0; 4; 5; 12; 128; 200; 245; 255]
  = [0; 0; 1; 9; 132; 208; 255; 255].
Proof. vm_compute. reflexivity. Qed.

(** [int(255 * 0.08)] is 20. *)
Example default_alpha_line :
  to_int (F := IEEE) (fmul (of_int 255) (literal 8 100)) = Returns 20.
Proof. vm_compute. reflexivity. Qed.

Example grain_samples :
  map (fun cn => grain_sample (fst cn) (snd cn))
      [(100, 5); (3, -7); (250, 9); (255, 32767)]
  = [105; 0; 255; 0].
Proof. vm_compute. reflexivity. Qed.

Example shift_720p :
  shift (F := IEEE) {| width := 1280; scanline_img := []; vignette := [] |}
  = 4.
Proof. reflexivity. Qed.

(** In the bit-exact model of the 8 x 6 mask of strength 0.45, of any two
    pixels the nearer to the centre has the greater or equal value. *)
Example ieee_mask_monotone :
  let table :=
    map (fun p => (dist2_x4 8 6 p,
                   vignette_value (F := IEEE) 8 6 (literal 45 100)
                                  (fst p) (snd p)))
        (pixels 8 6) in
  forallb (fun e1 =>
    forallb (fun e2 =>
      implb (fst e1 <? fst e2) (SFleb (snd e2) (snd e1)))
      table)
    table = true.
Proof. vm_compute. reflexivity. Qed.

(** In the bit-exact model every 8-bit sample under every value of that
    mask comes out of the vignette stage as an integer of [0,255], and
    never above the sample. *)
Example ieee_vignette_stage_range :
  let values :=
    map (fun q => vignette_value (F := IEEE) 8 6 (literal 45 100)
                                 (fst q) (snd q))
        (pixels 8 6) in
  forallb (fun p =>
    forallb (fun v =>
      let z := vignette_sample (F := IEEE) p v in (0 <=? z) && (z <=? p))
      values)
    (Numpy.arange 256) = true.
Proof. vm_compute. reflexivity. Qed.

(* ================================================================== *)
(** * Lists and arrays *)

Section ListFacts.
Context {A B C D : Type}.

Lemma map2_length (f : A -> B -> C) l1 l2 :
  length l1 = length l2 -> length (map2 f l1 l2) = length l1.
Proof.
  revert l2; induction l1 as [|a l1 IH]; intros [|b l2]; simpl;
    intros H; try discriminate; auto.
Qed.

Lemma map3_length (f : A -> B -> C -> D) l1 l2 l3 :
  length l1 = length l2 -> length l1 = length l3 ->
  length (map3 f l1 l2 l3) = length l1.
Proof.
  revert l2 l3; induction l1 as [|a l1 IH]; intros [|b l2] [|c l3]; simpl;
    intros H1 H2; try discriminate; auto.
Qed.

Lemma nth_error_map2 (f : A -> B -> C) l1 l2 n a b :
  nth_error l1 n = Some a -> nth_error l2 n = Some b ->
  nth_error (map2 f l1 l2) n = Some (f a b).
Proof.
  revert l2 n; induction l1 as [|a' l1 IH]; intros [|b' l2] [|n]; simpl;
    intros H1 H2; try discriminate.
  - congruence.
  - eauto.
Qed.

Lemma nth_error_map3 (f : A -> B -> C -> D) l1 l2 l3 n a b c :
  nth_error l1 n = Some a -> nth_error l2 n = Some b ->
  nth_error l3 n = Some c ->
  nth_error (map3 f l1 l2 l3) n = Some (f a b c).
Proof.
  revert l2 l3 n; induction l1 as [|a' l1 IH]; intros [|b' l2] [|c' l3] [|n];
    simpl; intros H1 H2 H3; try discriminate.
  - congruence.
  - eauto.
Qed.

Lemma nth_error_imap_from (f : Z -> A -> B) l i n a :
  nth_error l n = Some a ->
  nth_error (imap_from i f l) n = Some (f (i + Z.of_nat n) a).
Proof.
  revert i n; induction l as [|a' l IH]; intros i [|n]; simpl; intros H;
    try discriminate.
  - inversion H; subst. f_equal. f_equal. lia.
  - rewrite (IH (i + 1) n H). f_equal. f_equal. lia.
Qed.

Lemma imap_from_length (f : Z -> A -> B) l i :
  length (imap_from i f l) = length l.
Proof. revert i; induction l; simpl; intros; auto. Qed.

Lemma Forall_imap_from (Q : B -> Prop) (f : Z -> A -> B) l i :
  (forall j a, In a l -> Q (f j a)) -> Forall Q (imap_from i f l).
Proof.
  revert i; induction l as [|a l IH]; intros i H; simpl; constructor.
  - apply H; simpl; auto.
  - apply IH. intros; apply H; simpl; auto.
Qed.

Lemma Forall_map2 (P : C -> Prop) (f : A -> B -> C) l1 l2 :
  (forall a b, In a l1 -> In b l2 -> P (f a b)) ->
  Forall P (map2 f l1 l2).
Proof.
  revert l2; induction l1 as [|a l1 IH]; intros [|b l2] H; simpl;
    constructor.
  - apply H; simpl; auto.
  - apply IH. intros; apply H; simpl; auto.
Qed.

Lemma Forall_map3 (P : D -> Prop) (f : A -> B -> C -> D) l1 l2 l3 :
  (forall a b c, In a l1 -> In b l2 -> In c l3 -> P (f a b c)) ->
  Forall P (map3 f l1 l2 l3).
Proof.
  revert l2 l3; induction l1 as [|a l1 IH]; intros [|b l2] [|c l3] H; simpl;
    constructor.
  - apply H; simpl; auto.
  - apply IH. intros; apply H; simpl; auto.
Qed.

End ListFacts.

Section ArrayFacts.
Context {A B C : Type}.

Lemma at2_amap (f : A -> B) (a : array2 A) y x v :
  at2 a y x = Some v -> at2 (amap f a) y x = Some (f v).
Proof.
  unfold at2, amap. intros H.
  destruct (nth_error a y) as [row|] eqn:E; [|discriminate].
  rewrite (map_nth_error _ _ _ E). now apply map_nth_error.
Qed.

Lemma at2_amap2 (f : A -> B -> C) (a : array2 A) (b : array2 B) y x u v :
  at2 a y x = Some u -> at2 b y x = Some v ->
  at2 (amap2 f a b) y x = Some (f u v).
Proof.
  unfold at2, amap2. intros Ha Hb.
  destruct (nth_error a y) as [ra|] eqn:Ea; [|discriminate].
  destruct (nth_error b y) as [rb|] eqn:Eb; [|discriminate].
  rewrite (nth_error_map2 _ _ _ _ _ _ Ea Eb).
  now apply nth_error_map2.
Qed.

Lemma shape2_amap (f : A -> B) (a : array2 A) h w :
  shape2 a h w -> shape2 (amap f a) h w.
Proof.
  unfold shape2, amap. intros [Hl Hr]. split.
  - now rewrite length_map.
  - apply Forall_map. revert Hr. apply Forall_impl.
    intros row Hrow. now rewrite length_map.
Qed.

Lemma shape2_amap2 (f : A -> B -> C) (a : array2 A) (b : array2 B) h w :
  shape2 a h w -> shape2 b h w -> shape2 (amap2 f a b) h w.
Proof.
  unfold shape2, amap2. intros [Hla Hra] [Hlb Hrb]. split.
  - rewrite map2_length; congruence.
  - apply Forall_map2. intros ra rb Ia Ib.
    rewrite Forall_forall in Hra, Hrb.
    rewrite map2_length; [auto|]. rewrite (Hra _ Ia), (Hrb _ Ib); auto.
Qed.

Lemma at2_shape (a : array2 A) h w y x :
  shape2 a h w -> (y < h)%nat -> (x < w)%nat -> exists v, at2 a y x = Some v.
Proof.
  unfold shape2, at2. intros [Hl Hr] Hy Hx.
  destruct (nth_error a y) as [row|] eqn:E.
  - assert (Hin : In row a) by (eapply nth_error_In; eauto).
    rewrite Forall_forall in Hr. specialize (Hr _ Hin).
    destruct (nth_error row x) eqn:E'; eauto.
    apply nth_error_None in E'. lia.
  - apply nth_error_None in E. lia.
Qed.

Lemma at2_In (a : array2 A) y x v :
  at2 a y x = Some v -> exists row, In row a /\ In v row.
Proof.
  unfold at2. destruct (nth_error a y) as [row|] eqn:E; [|discriminate].
  intros H. exists row. split; eapply nth_error_In; eauto.
Qed.

Lemma all2_at2 (P : A -> Prop) (a : array2 A) y x v :
  all2 P a -> at2 a y x = Some v -> P v.
Proof.
  intros Ha H. destruct (at2_In _ _ _ _ H) as (row & I1 & I2).
  unfold all2 in Ha. rewrite Forall_forall in Ha.
  specialize (Ha _ I1). rewrite Forall_forall in Ha. auto.
Qed.


Lemma all2_amap_any (Q : B -> Prop) (f : A -> B) (a : array2 A) :
  (forall v, Q (f v)) -> all2 Q (amap f a).
Proof.
  intros H. unfold all2, amap. apply Forall_map. apply Forall_forall.
  intros row _. apply Forall_map. apply Forall_forall. auto.
Qed.

Lemma all2_amap2 (P : A -> Prop) (Q : C -> Prop) (f : A -> B -> C) a b :
  (forall u v, P u -> Q (f u v)) -> all2 P a -> all2 Q (amap2 f a b).
Proof.
  intros H Ha. unfold all2, amap2 in *. apply Forall_map2.
  intros ra rb Ia _. rewrite Forall_forall in Ha. specialize (Ha _ Ia).
  apply Forall_map2. intros u v Iu _. rewrite Forall_forall in Ha. auto.
Qed.


End ArrayFacts.

(* ================================================================== *)
(** * np.roll *)

Section Roll.
Context {A : Type}.

Lemma roll_length (s : Z) (row : list A) :
  length (Numpy.roll s row) = length row.
Proof.
  unfold Numpy.roll. rewrite length_app, length_skipn, length_firstn. lia.
Qed.

(** The entry at column [c] moves to column [(c + s) mod n]. *)
Lemma nth_error_roll (s : Z) (row : list A) (c : nat) :
  (c < length row)%nat ->
  nth_error (Numpy.roll s row)
            (Z.to_nat ((Z.of_nat c + s) mod Z.of_nat (length row)))
  = nth_error row c.
Proof.
  intros Hc. unfold Numpy.roll.
  set (n := Z.of_nat (length row)).
  assert (Hn : 0 < n) by (unfold n; lia).
  replace (n =? 0) with false by (symmetry; apply Z.eqb_neq; lia).
  set (offset := s mod n).
  assert (Ho : 0 <= offset < n) by (apply Z.mod_pos_bound; lia).
  assert (Hmod : (Z.of_nat c + s) mod n = (Z.of_nat c + offset) mod n).
  { unfold offset. now rewrite Zplus_mod_idemp_r. }
  rewrite Hmod.
  destruct (Z_lt_ge_dec (Z.of_nat c + offset) n) as [Hlt|Hge].
  - rewrite Z.mod_small by lia.
    rewrite nth_error_app2 by (rewrite length_skipn; unfold n in *; lia).
    rewrite length_skipn, nth_error_firstn.
    replace (Z.to_nat (Z.of_nat c + offset)
             - (length row - Z.to_nat (n - offset)))%nat with c
      by (unfold n in *; lia).
    replace (c <? Z.to_nat (n - offset))%nat with true; [reflexivity|].
    symmetry. apply Nat.ltb_lt. lia.
  - replace ((Z.of_nat c + offset) mod n) with (Z.of_nat c + offset - n).
    + rewrite nth_error_app1 by (rewrite length_skipn; unfold n in *; lia).
      rewrite nth_error_skipn. f_equal. unfold n in *; lia.
    + apply Z.mod_unique with (q := 1); lia.
Qed.

Lemma Forall_roll (P : A -> Prop) (s : Z) (row : list A) :
  Forall P row -> Forall P (Numpy.roll s row).
Proof.
  intros H. unfold Numpy.roll.
  set (k := Z.to_nat _).
  rewrite <- (firstn_skipn k row) in H.
  apply Forall_app in H as [H1 H2]. apply Forall_app. split; assumption.
Qed.

Lemma roll_repeat (s : Z) (a : A) (n : nat) :
  Numpy.roll s (repeat a n) = repeat a n.
Proof.
  assert (H : Forall (eq a) (Numpy.roll s (repeat a n))).
  { apply Forall_roll. apply Forall_forall. intros x Hx.
    symmetry. eapply repeat_spec; eauto. }
  apply Forall_eq_repeat in H. rewrite H, roll_length, repeat_length.
  reflexivity.
Qed.

Lemma shape2_roll_axis1 (s : Z) (a : array2 A) h w :
  shape2 a h w -> shape2 (Numpy.roll_axis1 s a) h w.
Proof.
  unfold shape2, Numpy.roll_axis1. intros [Hl Hr]. split.
  - now rewrite length_map.
  - apply Forall_map. revert Hr. apply Forall_impl.
    intros row Hrow. now rewrite roll_length.
Qed.

Lemma at2_roll_axis1 (s : Z) (a : array2 A) h w y c v :
  shape2 a h w -> at2 a y c = Some v ->
  at2 (Numpy.roll_axis1 s a) y
      (Z.to_nat ((Z.of_nat c + s) mod Z.of_nat w)) = Some v.
Proof.
  unfold at2, Numpy.roll_axis1. intros [Hl Hr] H.
  destruct (nth_error a y) as [row|] eqn:E; [|discriminate].
  rewrite (map_nth_error _ _ _ E).
  assert (Hw : length row = w).
  { rewrite Forall_forall in Hr. apply Hr. eapply nth_error_In; eauto. }
  rewrite <- Hw, nth_error_roll; auto.
  apply nth_error_Some. congruence.
Qed.


End Roll.

Section Stack.
Context {A : Type}.

Lemma shape2_stack_axis2 (r g b : array2 A) h w :
  shape2 r h w -> shape2 g h w -> shape2 b h w ->
  shape2 (Numpy.stack_axis2 r g b) h w.
Proof.
  unfold shape2, Numpy.stack_axis2. intros [Hr Hr'] [Hg Hg'] [Hb Hb']. split.
  - rewrite map3_length; congruence.
  - apply Forall_map3. intros x y z Ix Iy Iz.
    rewrite Forall_forall in Hr', Hg', Hb'.
    rewrite map3_length; rewrite (Hr' _ Ix); auto;
      [rewrite (Hg' _ Iy)|rewrite (Hb' _ Iz)]; auto.
Qed.

Lemma at2_stack_axis2 (r g b : array2 A) y x vr vg vb :
  at2 r y x = Some vr -> at2 g y x = Some vg -> at2 b y x = Some vb ->
  at2 (Numpy.stack_axis2 r g b) y x = Some (Px3 vr vg vb).
Proof.
  unfold at2, Numpy.stack_axis2. intros H1 H2 H3.
  destruct (nth_error r y) as [rr|] eqn:Er; [|discriminate].
  destruct (nth_error g y) as [rg|] eqn:Eg; [|discriminate].
  destruct (nth_error b y) as [rb|] eqn:Eb; [|discriminate].
  rewrite (nth_error_map3 _ _ _ _ _ _ _ _ Er Eg Eb).
  now apply nth_error_map3.
Qed.


End Stack.

(* ================================================================== *)
(** * Integer casts *)

Lemma wrap16_small (v : Z) : -32768 <= v < 32768 -> Numpy.wrap16 v = v.
Proof.
  intros H. unfold Numpy.wrap16. rewrite Z.mod_small; lia.
Qed.

Lemma wrap16_u8 (v : Z) : is_u8 v -> Numpy.wrap16 v = v.
Proof. unfold is_u8. intros H. apply wrap16_small. lia. Qed.

Lemma wrap16_range (v : Z) : -32768 <= Numpy.wrap16 v < 32768.
Proof.
  unfold Numpy.wrap16.
  pose proof (Z.mod_pos_bound (v + 32768) 65536 ltac:(lia)). lia.
Qed.

Lemma clip_int_u8 (v : Z) : is_u8 (Numpy.clip_int v 0 255).
Proof. unfold is_u8, Numpy.clip_int. lia. Qed.


Lemma at2_bounds {A} (a : array2 A) h w y x v :
  shape2 a h w -> at2 a y x = Some v -> (y < h)%nat /\ (x < w)%nat.
Proof.
  unfold shape2, at2. intros [Hl Hr] H.
  destruct (nth_error a y) as [row|] eqn:E; [|discriminate].
  assert (Hy : (y < length a)%nat) by (apply nth_error_Some; congruence).
  assert (Hx : (x < length row)%nat) by (apply nth_error_Some; congruence).
  rewrite Forall_forall in Hr.
  rewrite <- (Hr row) by (eapply nth_error_In; eauto). lia.
Qed.

Lemma astype_int16_u8 (frame : image_rgb) y x px :
  rgb_u8 frame -> at2 frame y x = Some px ->
  at2 (astype_int16 frame) y x = Some px.
Proof.
  intros Hu H. unfold astype_int16. rewrite (at2_amap _ _ _ _ _ H). f_equal.
  destruct (all2_at2 _ _ _ _ _ Hu H) as (H0 & H1 & H2).
  destruct px as [a b c]. unfold px3_map; simpl in *.
  now rewrite !wrap16_u8.
Qed.

Lemma shape2_astype_int16 (frame : image_rgb) h w :
  shape2 frame h w -> shape2 (astype_int16 frame) h w.
Proof. apply shape2_amap. Qed.


(* ================================================================== *)
(** * Chromatic aberration *)

Section Chromatic.
Context {F : Arith}.
Variable pl : pipeline (F := F).

Lemma shape2_chromatic_aberration (img : image_rgb) h w :
  shape2 img h w -> shape2 (chromatic_aberration pl img) h w.
Proof.
  intros H. unfold chromatic_aberration.
  apply shape2_amap, shape2_stack_axis2;
    [apply shape2_roll_axis1| |apply shape2_roll_axis1];
    now apply shape2_amap.
Qed.


(** The sample of channel [k] found at [(y, x)] of each plane ends up at
    [(y, x)] of the result. *)
Lemma at2_chromatic_aberration (img : image_rgb) y x vr vg vb :
  at2 (Numpy.roll_axis1 (- shift pl) (amap ch0 img)) y x = Some vr ->
  at2 (amap ch1 img) y x = Some vg ->
  at2 (Numpy.roll_axis1 (shift pl) (amap ch2 img)) y x = Some vb ->
  at2 (chromatic_aberration pl img) y x
  = Some (Px3 (Numpy.wrap16 vr) (Numpy.wrap16 vg) (Numpy.wrap16 vb)).
Proof.
  intros Hr Hg Hb. unfold chromatic_aberration.
  now rewrite (at2_amap _ _ _ _ _ (at2_stack_axis2 _ _ _ _ _ _ _ _ Hr Hg Hb)).
Qed.

End Chromatic.

(** ** C2 *)

(** C2. The chromatic aberration stage uses
    [shift = max(1, 2 * floor(width / 640))]; on a frame of the bound
    width it moves the red sample of column [c] to column
    [(c - shift) mod width], leaves every green sample in place, and moves
    the blue sample of column [c] to column [(c + shift) mod width]: both
    rotations wrap around. *)
Theorem chromatic_aberration_rotates {F : Arith} (pl : pipeline (F := F))
    (frame : image_rgb) (h w : nat) :
  shape2 frame h w -> rgb_u8 frame -> width pl = Z.of_nat w ->
  let out := chromatic_aberration pl (astype_int16 frame) in
  shift pl = Z.max 1 (2 * (width pl / 640)) /\
  shape2 out h w /\
  forall y c px, at2 frame y c = Some px ->
    exists r g b,
      at2 out y (Z.to_nat ((Z.of_nat c - shift pl) mod width pl)) = Some r /\
      ch0 r = ch0 px /\
      at2 out y c = Some g /\
      ch1 g = ch1 px /\
      at2 out y (Z.to_nat ((Z.of_nat c + shift pl) mod width pl)) = Some b /\
      ch2 b = ch2 px.
Proof.
  intros Hs Hu Hw out. split; [|split].
  - unfold shift. f_equal. lia.
  - apply shape2_chromatic_aberration, shape2_astype_int16, Hs.
  - intros y c px Hpx.
    destruct (at2_bounds _ _ _ _ _ _ Hs Hpx) as [Hy Hc].
    pose proof (astype_int16_u8 _ _ _ _ Hu Hpx) as Hpx16.
    destruct (all2_at2 _ _ _ _ _ Hu Hpx) as (U0 & U1 & U2).
    set (img := astype_int16 frame) in *.
    assert (Hs16 : shape2 img h w) by (apply shape2_astype_int16, Hs).
    set (R := Numpy.roll_axis1 (- shift pl) (amap ch0 img)).
    set (G := amap ch1 img).
    set (B := Numpy.roll_axis1 (shift pl) (amap ch2 img)).
    assert (SR : shape2 R h w) by (apply shape2_roll_axis1, shape2_amap, Hs16).
    assert (SG : shape2 G h w) by (apply shape2_amap, Hs16).
    assert (SB : shape2 B h w) by (apply shape2_roll_axis1, shape2_amap, Hs16).
    set (cl := Z.to_nat ((Z.of_nat c - shift pl) mod width pl)).
    set (cr := Z.to_nat ((Z.of_nat c + shift pl) mod width pl)).
    assert (Hcl : (cl < w)%nat).
    { unfold cl. rewrite Hw.
      pose proof (Z.mod_pos_bound (Z.of_nat c - shift pl) (Z.of_nat w)). lia. }
    assert (Hcr : (cr < w)%nat).
    { unfold cr. rewrite Hw.
      pose proof (Z.mod_pos_bound (Z.of_nat c + shift pl) (Z.of_nat w)). lia. }
    (* where the three samples of [px] land *)
    assert (HR : at2 R y cl = Some (ch0 px)).
    { unfold R, cl. rewrite Hw.
      replace (Z.of_nat c - shift pl) with (Z.of_nat c + - shift pl) by lia.
      eapply at2_roll_axis1; [apply shape2_amap, Hs16|].
      now apply at2_amap. }
    assert (HG : at2 G y c = Some (ch1 px)) by (now apply at2_amap).
    assert (HB : at2 B y cr = Some (ch2 px)).
    { unfold B, cr. rewrite Hw.
      eapply at2_roll_axis1; [apply shape2_amap, Hs16|].
      now apply at2_amap. }
    (* the other two samples of each of the three pixels *)
    destruct (at2_shape _ _ _ _ _ SG Hy Hcl) as [g1 Hg1].
    destruct (at2_shape _ _ _ _ _ SB Hy Hcl) as [b1 Hb1].
    destruct (at2_shape _ _ _ _ _ SR Hy Hc) as [r2 Hr2].
    destruct (at2_shape _ _ _ _ _ SB Hy Hc) as [b2 Hb2].
    destruct (at2_shape _ _ _ _ _ SR Hy Hcr) as [r3 Hr3].
    destruct (at2_shape _ _ _ _ _ SG Hy Hcr) as [g3 Hg3].
    eexists _, _, _. unfold out.
    rewrite (at2_chromatic_aberration pl img _ _ _ _ _ HR Hg1 Hb1).
    rewrite (at2_chromatic_aberration pl img _ _ _ _ _ Hr2 HG Hb2).
    rewrite (at2_chromatic_aberration pl img _ _ _ _ _ Hr3 Hg3 HB).
    repeat split; simpl; now apply wrap16_u8.
Qed.

(* ================================================================== *)
(** * Contrast and brightness *)

Lemma amap_repeat {A B} (f : A -> B) (v : A) (h w : nat) :
  amap f (repeat (repeat v w) h) = repeat (repeat (f v) w) h.
Proof. unfold amap. now rewrite !map_repeat. Qed.

Lemma map3_repeat {A B C D} (f : A -> B -> C -> D) a b c (n : nat) :
  map3 f (repeat a n) (repeat b n) (repeat c n) = repeat (f a b c) n.
Proof. induction n; simpl; congruence. Qed.

Lemma roll_axis1_repeat {A} (s : Z) (v : A) (h w : nat) :
  Numpy.roll_axis1 s (repeat (repeat v w) h) = repeat (repeat v w) h.
Proof. unfold Numpy.roll_axis1. now rewrite map_repeat, roll_repeat. Qed.

(** The rotation of the red and blue planes changes nothing in a frame whose
    pixels are all alike. *)
Lemma chromatic_aberration_uniform {F : Arith} (pl : pipeline (F := F))
    (v : Z) (h w : nat) :
  is_u8 v ->
  chromatic_aberration pl (astype_int16 (uniform_frame v h w))
  = uniform_frame v h w.
Proof.
  intros Hv. unfold chromatic_aberration, astype_int16, uniform_frame.
  rewrite !amap_repeat. unfold px3_map; simpl.
  rewrite !roll_axis1_repeat. unfold Numpy.stack_axis2.
  rewrite map3_repeat, map3_repeat, amap_repeat.
  unfold px3_map; simpl. now rewrite !(wrap16_u8 v Hv).
Qed.

Lemma In_arange (n v : Z) : 0 <= v < n -> In v (Numpy.arange n).
Proof.
  intros H. unfold Numpy.arange. apply in_map_iff.
  exists (Z.to_nat v). split; [lia|]. apply in_seq. lia.
Qed.

(** On each of the 256 sample values the float64 computation of lines 75-76
    gives the truncation of the exact value. *)
Lemma contrast_sample_spec (v : Z) :
  is_u8 v -> contrast_sample (F := IEEE) v = Spec.contrast v.
Proof.
  intros Hv.
  assert (H : forallb (fun v => contrast_sample (F := IEEE) v =? Spec.contrast v)
                      (Numpy.arange 256) = true) by (vm_compute; reflexivity).
  rewrite forallb_forall in H. apply Z.eqb_eq, H, In_arange.
  unfold is_u8 in Hv. lia.
Qed.

Lemma at2_contrast_brightness {F : Arith} (combined : image_rgb) y x px :
  at2 combined y x = Some px ->
  at2 (contrast_brightness combined) y x = Some (px3_map contrast_sample px).
Proof.
  intros H. unfold contrast_brightness, clip_uint8, gain_bias.
  rewrite (at2_amap _ _ _ _ _ (at2_amap _ _ _ _ _ H)). reflexivity.
Qed.

(** ** C1 *)

(** C1. In the contrast/brightness stage every 8-bit sample [v] of every
    channel becomes [clamp(128 + 1.06 * (v - 128) + 4, 0, 255)] truncated to
    8 bits, in float64 arithmetic as the script computes it; and a frame
    whose every sample is 128 comes out of this stage with every sample
    equal to 132, the rotation before it leaving such a frame as it is. *)
Theorem contrast_brightness_formula (P : Pillow) (pl : pipeline (F := IEEE)) :
  (forall combined y x px,
      rgb_u8 combined -> at2 combined y x = Some px ->
      at2 (contrast_brightness (F := IEEE) combined) y x
      = Some (px3_map Spec.contrast px)) /\
  (forall noise h w,
      st_shift (effect_stages pl noise (uniform_frame 128 h w))
      = uniform_frame 128 h w /\
      st_contrast (effect_stages pl noise (uniform_frame 128 h w))
      = uniform_frame 132 h w).
Proof.
  split.
  - intros combined y x px Hu H.
    rewrite (at2_contrast_brightness _ _ _ _ H). f_equal.
    destruct (all2_at2 _ _ _ _ _ Hu H) as (H0 & H1 & H2).
    destruct px as [a b c]. unfold px3_map; simpl in *.
    now rewrite !contrast_sample_spec.
  - intros noise h w. simpl.
    rewrite chromatic_aberration_uniform by (unfold is_u8; lia).
    split; [reflexivity|].
    unfold contrast_brightness, clip_uint8, gain_bias, uniform_frame.
    rewrite !amap_repeat. reflexivity.
Qed.

(* ================================================================== *)
(** * The vignette mask *)

Lemma nth_error_arange (n : Z) (i : nat) :
  (i < Z.to_nat n)%nat -> nth_error (Numpy.arange n) i = Some (Z.of_nat i).
Proof.
  intros H. unfold Numpy.arange.
  erewrite map_nth_error; [reflexivity|].
  rewrite nth_error_seq.
  replace (i <? Z.to_nat n)%nat with true by (symmetry; apply Nat.ltb_lt; lia).
  reflexivity.
Qed.

Lemma arange_length (n : Z) : length (Numpy.arange n) = Z.to_nat n.
Proof. unfold Numpy.arange. now rewrite length_map, length_seq. Qed.

Section VignetteMask.
Context {F : Arith}.

Lemma shape2_make_vignette_mask (w h : Z) (s : num F) :
  shape2 (make_vignette_mask w h s) (Z.to_nat h) (Z.to_nat w).
Proof.
  unfold make_vignette_mask, Numpy.dstack3.
  do 4 apply shape2_amap. unfold shape2. split.
  - now rewrite length_map, arange_length.
  - apply Forall_map, Forall_forall. intros y _.
    now rewrite length_map, arange_length.
Qed.

(** The entry of the mask at row [y], column [x]: the same value in the
    three channels. *)
Lemma at2_make_vignette_mask (w h : Z) (s : num F) (x y : nat) :
  (x < Z.to_nat w)%nat -> (y < Z.to_nat h)%nat ->
  at2 (make_vignette_mask w h s) y x
  = Some (let v := vignette_value w h s (Z.of_nat x) (Z.of_nat y) in
          Px3 v v v).
Proof.
  intros Hx Hy. unfold make_vignette_mask, Numpy.dstack3.
  assert (H : at2 (map (fun y0 => map (fun x0 => vignette_dist w h x0 y0)
                                      (Numpy.arange w)) (Numpy.arange h)) y x
              = Some (vignette_dist w h (Z.of_nat x) (Z.of_nat y))).
  { unfold at2.
    rewrite (map_nth_error _ _ _ (nth_error_arange h y Hy)).
    now rewrite (map_nth_error _ _ _ (nth_error_arange w x Hx)). }
  rewrite (at2_amap _ _ _ _ _
             (at2_amap _ _ _ _ _ (at2_amap _ _ _ _ _ (at2_amap _ _ _ _ _ H)))).
  reflexivity.
Qed.

End VignetteMask.

(** ** Over the reals *)

Section VignetteReal.
Local Open Scope R_scope.

Lemma clip_Real (x lo hi : R) :
  Numpy.clip (F := Real) x lo hi = Spec.clampR x lo hi.
Proof.
  unfold Numpy.clip, Numpy.minimum, Numpy.maximum, Spec.clampR; simpl.
  unfold RealArith.ltb, Rmin, Rmax.
  repeat (destruct Rlt_dec; destruct Rle_dec; try lra);
    repeat (destruct Rle_dec; try lra); repeat (destruct Rlt_dec; try lra).
Qed.


Lemma clampR_mono (x y lo hi : R) :
  x <= y -> Spec.clampR x lo hi <= Spec.clampR y lo hi.
Proof.
  intros H. unfold Spec.clampR, Rmin, Rmax.
  repeat (destruct Rle_dec; try lra).
Qed.

Lemma clampR_id (x lo hi : R) : lo <= x <= hi -> Spec.clampR x lo hi = x.
Proof.
  intros H. unfold Spec.clampR, Rmin, Rmax.
  repeat (destruct Rle_dec; try lra).
Qed.

Lemma vignette_dist_Real (w h x y : Z) :
  vignette_dist (F := Real) w h x y
  = Spec.dist (IZR x) (IZR y) (IZR w / 2) (IZR h / 2).
Proof.
  unfold vignette_dist, Spec.dist; simpl.
  replace (2 / 1) with 2 by lra. reflexivity.
Qed.

Lemma vignette_max_dist_Real (w h : Z) :
  vignette_max_dist (F := Real) w h
  = sqrt (IZR w / 2 * (IZR w / 2) + IZR h / 2 * (IZR h / 2)).
Proof.
  unfold vignette_max_dist; simpl.
  replace (2 / 1) with 2 by lra. reflexivity.
Qed.

(** The code's mask value is the specification's formula. *)
Lemma vignette_value_Real (w h : Z) (s : R) (x y : Z) :
  vignette_value (F := Real) w h s x y = Spec.vignette w h s x y.
Proof.
  unfold vignette_value, Spec.vignette.
  rewrite clip_Real, vignette_dist_Real, vignette_max_dist_Real. simpl.
  replace (1 / 1) with 1 by lra. replace (0 / 1) with 0 by lra.
  reflexivity.
Qed.

Lemma max_dist_pos (w h : Z) :
  (0 < w)%Z -> 0 < sqrt (IZR w / 2 * (IZR w / 2) + IZR h / 2 * (IZR h / 2)).
Proof.
  intros H. apply sqrt_lt_R0. apply IZR_lt in H.
  assert (0 <= IZR h / 2 * (IZR h / 2)) by nra. nra.
Qed.

(** Pixel [(0, 0)] is at the full distance from the centre. *)
Lemma dist_origin (w h : Z) :
  Spec.dist 0 0 (IZR w / 2) (IZR h / 2)
  = sqrt (IZR w / 2 * (IZR w / 2) + IZR h / 2 * (IZR h / 2)).
Proof. unfold Spec.dist. f_equal. lra. Qed.

(** No pixel is farther from the centre than pixel [(0, 0)]. *)
Lemma dist_le_max (w h x y : Z) :
  (0 <= x < w)%Z -> (0 <= y < h)%Z ->
  Spec.dist (IZR x) (IZR y) (IZR w / 2) (IZR h / 2)
  <= Spec.dist 0 0 (IZR w / 2) (IZR h / 2).
Proof.
  intros [Hx0 Hx1] [Hy0 Hy1]. unfold Spec.dist. apply sqrt_le_1_alt.
  apply IZR_le in Hx0, Hy0. apply IZR_lt in Hx1, Hy1.
  assert ((IZR x - IZR w / 2) * (IZR x - IZR w / 2)
          <= (0 - IZR w / 2) * (0 - IZR w / 2)) by nra.
  assert ((IZR y - IZR h / 2) * (IZR y - IZR h / 2)
          <= (0 - IZR h / 2) * (0 - IZR h / 2)) by nra.
  lra.
Qed.

Lemma vignette_spec_mono (w h : Z) (s : R) (x1 y1 x2 y2 : Z) :
  (0 < w)%Z -> 0 <= s ->
  Spec.dist (IZR x1) (IZR y1) (IZR w / 2) (IZR h / 2)
  < Spec.dist (IZR x2) (IZR y2) (IZR w / 2) (IZR h / 2) ->
  Spec.vignette w h s x2 y2 <= Spec.vignette w h s x1 y1.
Proof.
  intros Hw Hs Hd. unfold Spec.vignette. apply clampR_mono.
  pose proof (max_dist_pos w h Hw) as Hm.
  set (m := sqrt _) in *.
  set (d1 := Spec.dist (IZR x1) _ _ _) in *.
  set (d2 := Spec.dist (IZR x2) _ _ _) in *.
  assert (Hq : d1 / m <= d2 / m).
  { apply Rmult_le_compat_r; [left; now apply Rinv_0_lt_compat|lra]. }
  nra.
Qed.

Lemma vignette_spec_centre (w h : Z) (s : R) (x y : Z) :
  (2 * x = w)%Z -> (2 * y = h)%Z -> Spec.vignette w h s x y = 1.
Proof.
  intros Hx Hy. unfold Spec.vignette, Spec.dist. subst w h.
  rewrite !mult_IZR.
  replace ((IZR x - 2 * IZR x / 2) * (IZR x - 2 * IZR x / 2)
           + (IZR y - 2 * IZR y / 2) * (IZR y - 2 * IZR y / 2)) with 0
    by field.
  rewrite sqrt_0. set (m := sqrt _).
  replace (1 - s * (0 / m)) with 1 by (unfold Rdiv; ring).
  apply clampR_id. lra.
Qed.

Lemma vignette_spec_corner (w h : Z) (s : R) :
  (0 < w)%Z -> 0 <= s <= 1 -> Spec.vignette w h s 0 0 = 1 - s.
Proof.
  intros Hw Hs. unfold Spec.vignette. rewrite dist_origin.
  pose proof (max_dist_pos w h Hw) as Hm. set (m := sqrt _) in *.
  replace (1 - s * (m / m)) with (1 - s) by (field; lra).
  apply clampR_id. lra.
Qed.

End VignetteReal.

(** ** C3 *)

(** C3, as the code has it.  For every width > 0, height > 0 and strength in
    [0,1], the mask value at pixel (x, y) is
    [clamp(1 - strength * (dist((x,y), (w/2,h/2)) / sqrt((w/2)^2 + (h/2)^2)), 0, 1)]
    in the three channels alike (over the reals, that is, up to floating
    rounding); when width and height are both even the value at the centre
    pixel (w/2, h/2) is 1; and the value at pixel (0, 0), which no pixel
    exceeds in distance from the centre, is [1 - strength]. *)
Theorem vignette_mask_formula (w h : Z) (s : R) :
  0 < w -> 0 < h -> (0 <= s <= 1)%R ->
  let mask := make_vignette_mask (F := Real) w h s in
  (forall x y, 0 <= x < w -> 0 <= y < h ->
     at2 mask (Z.to_nat y) (Z.to_nat x)
     = Some (let v := Spec.vignette w h s x y in Px3 v v v) /\
     (Spec.dist (IZR x) (IZR y) (IZR w / 2) (IZR h / 2)
      <= Spec.dist 0 0 (IZR w / 2) (IZR h / 2))%R) /\
  (forall x y, 2 * x = w -> 2 * y = h ->
     at2 mask (Z.to_nat y) (Z.to_nat x) = Some (Px3 1 1 1)%R) /\
  at2 mask 0 0 = Some (Px3 (1 - s) (1 - s) (1 - s))%R.
Proof.
  intros Hw Hh Hs mask.
  assert (Hat : forall x y, 0 <= x < w -> 0 <= y < h ->
            at2 mask (Z.to_nat y) (Z.to_nat x)
            = Some (let v := Spec.vignette w h s x y in Px3 v v v)).
  { intros x y Hx Hy. unfold mask.
    rewrite at2_make_vignette_mask by lia.
    rewrite !Z2Nat.id by lia. cbv zeta. now rewrite vignette_value_Real. }
  split; [|split].
  - intros x y Hx Hy. split; [now apply Hat|now apply dist_le_max].
  - intros x y Hx Hy. rewrite Hat by lia. cbv zeta.
    now rewrite (vignette_spec_centre w h s x y Hx Hy).
  - change 0%nat with (Z.to_nat 0). rewrite Hat by lia. cbv zeta.
    now rewrite (vignette_spec_corner w h s Hw Hs).
Qed.

(** C3 as stated fails.  In the 3 x 3 mask of strength 0.5 the middle pixel
    (1, 1) is not at the centre (1.5, 1.5): its value is the float32 nearest
    to 5/6, and every value of the mask is below 0.84. *)
Lemma vignette_centre_counterexample :
  let mask := make_vignette_mask (F := IEEE) 3 3 (literal 1 2) in
  let v := S754_finite false 13981013 (-24) in
  at2 mask 1 1 = Some (Px3 v v v) /\
  fltb (F := IEEE) v (to_f32 (literal 84 100)) = true /\
  forallb (forallb (fun p => fltb (F := IEEE) (ch0 p) (to_f32 (literal 84 100))))
          mask = true.
Proof. vm_compute. repeat split. Qed.

(** ** C6 *)

(** C6. For every width > 0, height > 0 and strength in [0,1], of two pixels
    of the vignette mask the one nearer to the centre has the greater or
    equal value, in each channel. *)
Theorem vignette_mask_monotone (w h : Z) (s : R) (x1 y1 x2 y2 : nat)
    (p1 p2 : px3 R) :
  0 < w -> 0 < h -> (0 <= s <= 1)%R ->
  let mask := make_vignette_mask (F := Real) w h s in
  at2 mask y1 x1 = Some p1 ->
  at2 mask y2 x2 = Some p2 ->
  (Spec.dist (IZR (Z.of_nat x1)) (IZR (Z.of_nat y1)) (IZR w / 2) (IZR h / 2)
   < Spec.dist (IZR (Z.of_nat x2)) (IZR (Z.of_nat y2)) (IZR w / 2) (IZR h / 2))%R ->
  (ch0 p2 <= ch0 p1 /\ ch1 p2 <= ch1 p1 /\ ch2 p2 <= ch2 p1)%R.
Proof.
  intros Hw Hh Hs mask H1 H2 Hd.
  pose proof (shape2_make_vignette_mask (F := Real) w h s) as Hshape.
  destruct (at2_bounds _ _ _ _ _ _ Hshape H1) as [Hy1 Hx1].
  destruct (at2_bounds _ _ _ _ _ _ Hshape H2) as [Hy2 Hx2].
  unfold mask in H1, H2.
  rewrite at2_make_vignette_mask in H1, H2 by assumption.
  cbv zeta in H1, H2. rewrite vignette_value_Real in H1, H2.
  inversion H1; inversion H2; subst; simpl.
  pose proof (vignette_spec_mono w h s _ _ _ _ Hw (proj1 Hs) Hd).
  auto.
Qed.

(* ================================================================== *)
(** * The vignette stage *)

Lemma at2_uniform_frame (v : Z) (h w y x : nat) :
  (y < h)%nat -> (x < w)%nat ->
  at2 (uniform_frame v h w) y x = Some (Px3 v v v).
Proof.
  intros Hy Hx. unfold at2, uniform_frame.
  rewrite nth_error_repeat by assumption. now apply nth_error_repeat.
Qed.

Lemma at2_apply_vignette {F : Arith} (pl : pipeline) (pil2 : image_rgb)
    y x px m :
  at2 pil2 y x = Some px -> at2 (vignette pl) y x = Some m ->
  at2 (apply_vignette pl pil2) y x = Some (px3_map2 vignette_sample px m).
Proof.
  intros Hp Hm. unfold apply_vignette, denormalize, multiply, normalize,
    clip_uint8.
  rewrite (at2_amap _ _ _ _ _
             (at2_amap _ _ _ _ _
                (at2_amap2 _ _ _ _ _ _ _ (at2_amap _ _ _ _ _ Hp) Hm))).
  reflexivity.
Qed.

(** ** C7 *)

(** C7, as the code has it.  The vignette stage alone, with strength 0.5, on
    a white 100 x 100 frame leaves the centre pixel (50, 50) at 255 in every
    channel; of the four corners, (0, 0) becomes 127, (99, 0) and (0, 99)
    become 128, and (99, 99), which is nearer to the centre (50, 50) than
    the others, becomes 130. *)
Theorem vignette_white_frame :
  let out := apply_vignette white_vignette_only (uniform_frame 255 100 100) in
  at2 out 50 50 = Some (Px3 255 255 255) /\
  at2 out 0 0 = Some (Px3 127 127 127) /\
  at2 out 0 99 = Some (Px3 128 128 128) /\
  at2 out 99 0 = Some (Px3 128 128 128) /\
  at2 out 99 99 = Some (Px3 130 130 130).
Proof.
  cbv zeta.
  repeat split;
    (erewrite at2_apply_vignette;
     [|apply at2_uniform_frame; lia
      |apply at2_make_vignette_mask; vm_compute; lia]);
    vm_compute; reflexivity.
Qed.

(** C7 as stated fails at the corner (99, 99): its value 130 is not within
    one of 128. *)
Lemma vignette_corner_counterexample :
  exists p,
    at2 (apply_vignette white_vignette_only (uniform_frame 255 100 100)) 99 99
    = Some p /\
    ~ (Z.abs (ch0 p - 128) <= 1).
Proof.
  exists (Px3 130 130 130). split; [|simpl; lia].
  erewrite at2_apply_vignette;
    [|apply at2_uniform_frame; lia
     |apply at2_make_vignette_mask; vm_compute; lia].
  vm_compute. reflexivity.
Qed.

(* ================================================================== *)
(** * Range of the samples *)

Section RangeReal.




End RangeReal.




(** ** C4 *)


(* ================================================================== *)
(** * The scanline image *)

Lemma plain_pillow_laws : PillowLaws plain_pillow.
Proof.
  constructor; simpl; auto.
  - intros v Hv. unfold is_u8, Numpy.clip_int in *. lia.
  - intros v. apply clip_int_u8.
Qed.

Section Scanlines.
Context {P : Pillow}.

Lemma at2_rectangle (x0 y0 x1 y1 : Z) (c : px4 Z) (img : image_rgba)
    (y x : nat) (p : px4 Z) :
  at2 img y x = Some p ->
  at2 (PIL.rectangle x0 y0 x1 y1 c img) y x
  = Some (if (x0 <=? Z.of_nat x) && (Z.of_nat x <=? x1)
             && (y0 <=? Z.of_nat y) && (Z.of_nat y <=? y1)
          then PIL.ink c else p).
Proof.
  unfold at2, PIL.rectangle. intros H.
  destruct (nth_error img y) as [row|] eqn:E; [|discriminate].
  rewrite (nth_error_imap_from _ _ 0 _ _ E).
  now rewrite (nth_error_imap_from _ _ 0 _ _ H).
Qed.

Lemma shape2_rectangle (x0 y0 x1 y1 : Z) (c : px4 Z) (img : image_rgba) h w :
  shape2 img h w -> shape2 (PIL.rectangle x0 y0 x1 y1 c img) h w.
Proof.
  unfold shape2, PIL.rectangle. intros [Hl Hr]. split.
  - now rewrite imap_from_length.
  - apply Forall_imap_from. intros j row Hrow.
    rewrite imap_from_length. rewrite Forall_forall in Hr. auto.
Qed.

Variables w h line_height gap alpha_line : Z.

Local Abbreviation d := (line_height + gap).

(** Fuel beyond what the loop needs does not change its result. *)
Lemma scanline_loop_fuel (fuel fuel' : nat) st r :
  scanline_loop fuel w h line_height gap alpha_line st = Returns r ->
  (fuel <= fuel')%nat ->
  scanline_loop fuel' w h line_height gap alpha_line st = Returns r.
Proof.
  revert fuel' st. induction fuel as [|fuel IH]; intros fuel' st H Hle;
    simpl in H; [discriminate|].
  destruct fuel' as [|fuel']; [lia|]. simpl.
  destruct (scanline_step w h line_height gap alpha_line st) as [st'|];
    [|assumption].
  apply IH; [assumption|lia].
Qed.

(** The loop keeps the size of the image. *)
Lemma scanline_loop_shape (fuel : nat) st r (hh ww : nat) :
  scanline_loop fuel w h line_height gap alpha_line st = Returns r ->
  shape2 (snd st) hh ww -> shape2 (snd r) hh ww.
Proof.
  revert st. induction fuel as [|fuel IH]; intros [y img] H Hs;
    simpl in H; [discriminate|].
  destruct (y <? h).
  - apply (IH _ H). simpl. now apply shape2_rectangle.
  - now inversion H.
Qed.

(** The loop ends, at the first offset that is not below [h], and keeps
    every property [I] of the state that one round keeps. *)
Lemma scanline_loop_inv (I : Z -> image_rgba -> Prop) :
  1 <= d ->
  (forall y img, I y img -> y < h ->
     I (y + d) (PIL.rectangle 0 y w (Z.min h (y + line_height - 1))
                              (Px4 0 0 0 alpha_line) img)) ->
  forall (fuel : nat) (y : Z) (img : image_rgba),
    (0 < fuel)%nat -> h - y <= (Z.of_nat fuel - 1) * d ->
    I y img ->
    exists y' img',
      scanline_loop fuel w h line_height gap alpha_line (y, img)
      = Returns (y', img') /\
      I y' img' /\ h <= y' /\ (y < h -> y' < h + d) /\ (h <= y -> y' = y).
Proof.
  intros Hd Hstep. induction fuel as [|fuel IH]; intros y img H0 Hf HI.
  - lia.
  - simpl. destruct (Z.ltb_spec y h) as [Hlt|Hge].
    + destruct (IH (y + (line_height + gap))
                   (PIL.rectangle 0 y w (Z.min h (y + line_height - 1))
                                  (Px4 0 0 0 alpha_line) img))
        as (y' & img' & Hrun & HI' & Hh & Hlt' & Hge').
      * nia.
      * nia.
      * apply Hstep; assumption.
      * exists y', img'. repeat split; auto; lia.
    + exists y, img. repeat split; auto; lia.
Qed.

(** ** The bands *)

Local Abbreviation band_pixel := (scan_pixel alpha_line).
Local Abbreviation bands_upto :=
  (scan_bands_upto w h line_height gap alpha_line).

Lemma band_round (k y r x : Z) :
  1 <= line_height -> 0 <= gap -> 0 <= k -> y = k * d -> y < h ->
  0 <= r < h -> 0 <= x < w ->
  (0 <=? x) && (x <=? w) && (y <=? r)
    && (r <=? Z.min h (y + line_height - 1))
  || (r <? y) && (r mod d <? line_height)
  = (r <? y + d) && (r mod d <? line_height).
Proof.
  intros Hl Hg Hk Hy Hyh Hr Hx.
  assert (Hd : 1 <= d) by lia.
  replace (0 <=? x) with true by (symmetry; apply Z.leb_le; lia).
  replace (x <=? w) with true by (symmetry; apply Z.leb_le; lia).
  simpl.
  destruct (Z.ltb_spec r y) as [H1|H1].
  - replace (y <=? r) with false by (symmetry; apply Z.leb_gt; lia).
    replace (r <? y + d) with true by (symmetry; apply Z.ltb_lt; lia).
    reflexivity.
  - replace (y <=? r) with true by (symmetry; apply Z.leb_le; lia).
    simpl. rewrite orb_false_r.
    destruct (Z.ltb_spec r (y + d)) as [H2|H2].
    + assert (Hm : r mod d = r - y).
      { symmetry. apply Z.mod_unique with (q := k); lia. }
      rewrite Hm. simpl.
      destruct (Z.ltb_spec (r - y) line_height);
        [apply Z.leb_le|apply Z.leb_gt]; lia.
    + simpl. apply Z.leb_gt. lia.
Qed.

Lemma bands_upto_round (y : Z) (img : image_rgba) :
  1 <= line_height -> 0 <= gap ->
  bands_upto y img -> y < h ->
  bands_upto (y + d)
    (PIL.rectangle 0 y w (Z.min h (y + line_height - 1))
                   (Px4 0 0 0 alpha_line) img).
Proof.
  intros Hl Hg ((k & Hk & Hy) & Hs & Hpx) Hyh. split; [|split].
  - exists (k + 1). split; lia.
  - now apply shape2_rectangle.
  - intros r x Hr Hx.
    rewrite (at2_rectangle _ _ _ _ _ _ _ _ _ (Hpx r x Hr Hx)).
    f_equal.
    rewrite <- (band_round k y (Z.of_nat r) (Z.of_nat x)) by lia.
    unfold scan_pixel.
    destruct ((0 <=? Z.of_nat x) && (Z.of_nat x <=? w) && (y <=? Z.of_nat r)
              && (Z.of_nat r <=? Z.min h (y + line_height - 1)));
      reflexivity.
Qed.

Lemma bands_upto_new :
  0 <= w -> 0 <= h ->
  exists img, PIL.Image_new w h (Px4 0 0 0 0) = Returns img /\
              bands_upto 0 img.
Proof.
  intros Hw Hh. unfold PIL.Image_new.
  replace (w <? 0) with false by (symmetry; apply Z.ltb_ge; lia).
  replace (h <? 0) with false by (symmetry; apply Z.ltb_ge; lia).
  simpl. eexists. split; [reflexivity|]. split; [|split].
  - exists 0. lia.
  - split; [apply repeat_length|].
    apply Forall_forall. intros row Hrow.
    apply repeat_spec in Hrow. subst. apply repeat_length.
  - intros r x Hr Hx. unfold at2.
    rewrite nth_error_repeat by assumption.
    rewrite nth_error_repeat by assumption.
    replace (Z.of_nat r <? 0) with false by (symmetry; apply Z.ltb_ge; lia).
    reflexivity.
Qed.

(** The loop from the new image: it returns, and the rows of the result
    are the bands. *)
Lemma scanline_loop_bands (fuel : nat) :
  0 <= w -> 0 <= h -> 1 <= line_height -> 0 <= gap ->
  (Z.to_nat h < fuel)%nat ->
  exists img0 y' img',
    PIL.Image_new w h (Px4 0 0 0 0) = Returns img0 /\
    scanline_loop fuel w h line_height gap alpha_line (0, img0)
    = Returns (y', img') /\
    shape2 img' (Z.to_nat h) (Z.to_nat w) /\
    forall r x : nat, (r < Z.to_nat h)%nat -> (x < Z.to_nat w)%nat ->
      at2 img' r x
      = Some (band_pixel (Z.of_nat r mod d <? line_height)).
Proof.
  intros Hw Hh Hl Hg Hfuel.
  destruct (bands_upto_new Hw Hh) as (img0 & Hnew & H0).
  assert (Hd : 1 <= d) by lia.
  destruct (scanline_loop_inv bands_upto Hd
              (fun y img HI Hy => bands_upto_round y img Hl Hg HI Hy)
              fuel 0 img0) as (y' & img' & Hrun & (_ & Hs & Hpx) & Hy' & _).
  { lia. }
  { nia. }
  { exact H0. }
  exists img0, y', img'. repeat split; try assumption; try apply Hs.
  intros r x Hr Hx. rewrite (Hpx r x Hr Hx).
  replace (Z.of_nat r <? y') with true by (symmetry; apply Z.ltb_lt; lia).
  reflexivity.
Qed.

End Scanlines.

(** ** C10 *)

(** C10. For every height > 0, lineHeight >= 1 and gap >= 0 the band-filling
    loop terminates: each round moves the row offset up by
    [lineHeight + gap >= 1], and with more than [height] units of fuel the
    loop returns, at the first offset that is not below [height]. *)
Theorem scanline_loop_terminates (P : Pillow)
    (w h line_height gap alpha_line : Z) (img : image_rgba) :
  0 < h -> 1 <= line_height -> 0 <= gap ->
  (forall y im st',
     scanline_step w h line_height gap alpha_line (y, im) = Some st' ->
     y < h /\ fst st' = y + (line_height + gap) /\ y < fst st') /\
  exists y' img',
    (forall fuel, (Z.to_nat h < fuel)%nat ->
       scanline_loop fuel w h line_height gap alpha_line (0, img)
       = Returns (y', img')) /\
    h <= y' < h + (line_height + gap).
Proof.
  intros Hh Hl Hg. split.
  - intros y im st' H. unfold scanline_step in H.
    destruct (Z.ltb_spec y h); [|discriminate].
    inversion H; subst; simpl. lia.
  - destruct (scanline_loop_inv w h line_height gap alpha_line
                (fun _ _ => True) ltac:(lia) (fun _ _ _ _ => Logic.I)
                (S (Z.to_nat h)) 0 img ltac:(lia) ltac:(nia) Logic.I)
      as (y' & img' & Hrun & _ & Hy' & Hlt & _).
    exists y', img'. split; [|lia].
    intros fuel Hfuel. eapply scanline_loop_fuel; [exact Hrun|lia].
Qed.

(** ** C5 *)





(* ================================================================== *)
(** * Parameters outside their documented ranges *)



(** The masks the factory builds have the size it was called with. *)
Lemma frame_effect_factory_shapes {F : Arith} (P : Pillow) (L : PillowLaws P)
    (fuel : nat) (w h : Z) (pl : pipeline) :
  frame_effect_factory fuel w h = Returns pl ->
  width pl = w /\
  shape2 (scanline_img pl) (Z.to_nat h) (Z.to_nat w) /\
  shape2 (vignette pl) (Z.to_nat h) (Z.to_nat w).
Proof.
  unfold frame_effect_factory, make_scanline_image, scanline_canvas,
    PIL.Image_new.
  destruct ((w <? 0) || (h <? 0)); cbn [obind]; [discriminate|].
  destruct (to_int _) as [a| |]; cbn [obind]; try discriminate.
  destruct (scanline_loop _ _ _ _ _ _ _) as [r| |] eqn:Hrun; cbn [obind];
    try discriminate.
  intros H. inversion H; subst; clear H. cbn [width scanline_img vignette].
  split; [reflexivity|]. split; [|apply shape2_make_vignette_mask].
  apply GaussianBlur_shape.
  apply (scanline_loop_shape _ _ _ _ _ _ _ _ _ _ Hrun). simpl.
  split; [apply repeat_length|].
  apply Forall_forall. intros row Hrow.
  apply repeat_spec in Hrow. subst. apply repeat_length.
Qed.

(** ** C9 *)



(* ================================================================== *)
(** * effect on the store *)

Section StoreFacts.
Context {F : Arith} {P : Pillow}.
Local Open Scope nat_scope.

Implicit Types (s tl : store (F := F)) (o : obj (F := F)).

Lemma nth_error_old s tl l o :
  nth_error s l = Some o -> nth_error (s ++ tl) l = Some o.
Proof.
  intros H. rewrite nth_error_app1; [assumption|].
  apply nth_error_Some. congruence.
Qed.

Lemma nth_error_new s tl i :
  nth_error (s ++ tl) (length s + i) = nth_error tl i.
Proof.
  rewrite nth_error_app2 by lia. f_equal. lia.
Qed.

Lemma update_new s tl i o :
  update (length s + i) o (s ++ tl) = s ++ update i o tl.
Proof.
  induction s as [|x s IH]; simpl; [reflexivity|].
  now rewrite IH.
Qed.

Lemma bind_alloc {B} o (k : loc -> M B) s tl :
  bind (alloc o) k (s ++ tl) = k (length s + length tl)%nat (s ++ (tl ++ [o])).
Proof.
  unfold bind, alloc. now rewrite length_app, app_assoc.
Qed.

Lemma bind_assign_new {B} i o o' (k : unit -> M B) s tl :
  nth_error tl i = Some o' ->
  bind (assign (length s + i) o) k (s ++ tl) = k tt (s ++ update i o tl).
Proof.
  intros H. unfold bind, assign.
  now rewrite nth_error_new, H, update_new.
Qed.

Lemma bind_deref_old {B} l o (k : obj -> M B) s tl :
  nth_error s l = Some o -> bind (deref l) k (s ++ tl) = k o (s ++ tl).
Proof.
  intros H. unfold bind, deref. now rewrite (nth_error_old _ _ _ _ H).
Qed.

Lemma bind_deref_new {B} i o (k : obj -> M B) s tl :
  nth_error tl i = Some o ->
  bind (deref (length s + i)) k (s ++ tl) = k o (s ++ tl).
Proof.
  intros H. unfold bind, deref. now rewrite nth_error_new, H.
Qed.

Lemma bind_bind {A B C} (m : M A) (k : A -> M B) (k' : B -> M C) s :
  bind (bind m k) k' s = bind m (fun a => bind (k a) k') s.
Proof.
  unfold bind. destruct (m s) as [[a s']|]; reflexivity.
Qed.

Lemma bind_ret {A B} (a : A) (k : A -> M B) s : bind (ret a) k s = k a s.
Proof. reflexivity. Qed.

End StoreFacts.

(** One step of the program on a store [s ++ tl], where [s] is the store the
    call started in and [tl] the objects allocated since. *)
Ltac exec_step :=
  first
    [ rewrite bind_alloc
    | erewrite bind_assign_new by reflexivity
    | erewrite bind_deref_new by reflexivity
    | erewrite bind_deref_old by eassumption ];
  cbn [length app update Nat.add].

Ltac exec_get :=
  unfold get_ndarray, get_plane, get_ndarrayF, get_rgb, get_rgba;
  rewrite bind_bind; exec_step; rewrite bind_ret.

Section EffectShape.
Context {F : Arith} {P : Pillow} {L : PillowLaws P}.

Lemma shape2_effect (pl : pipeline) (noise frame : image_rgb) (h w : nat) :
  shape2 frame h w -> shape2 noise h w ->
  shape2 (scanline_img pl) h w -> shape2 (vignette pl) h w ->
  shape2 (effect pl noise frame) h w.
Proof.
  intros Hf Hn Hs Hv. unfold effect, effect_stages; simpl.
  unfold apply_vignette, denormalize, multiply, normalize, clip_uint8.
  do 2 apply shape2_amap. apply shape2_amap2; [|assumption].
  apply shape2_amap. unfold overlay_scanlines, PIL.convert_RGB.
  apply shape2_amap. apply alpha_composite_shape; [|assumption].
  unfold PIL.convert_RGBA. apply shape2_amap.
  unfold sharpen. apply UnsharpMask_shape.
  unfold film_grain. apply shape2_amap2; [|assumption].
  unfold contrast_brightness, clip_uint8, gain_bias. do 2 apply shape2_amap.
  apply shape2_chromatic_aberration, shape2_astype_int16, Hf.
Qed.

End EffectShape.

(** ** C8 *)

(** C8. Called on a frame of the bound size, [effect] returns a reference to
    a new array of the same size, and when it returns every object that was
    in the store before the call, the input frame among them, is what it
    was. *)
Theorem effect_leaves_frame_unchanged {F : Arith} (P : Pillow)
    (L : PillowLaws P) (cl : closure) (s : store (F := F)) (frame : loc)
    (f noise : image_rgb) (sc : image_rgba) (v : array2 (px3 (num F)))
    (h w : nat) :
  nth_error s frame = Some (Ndarray f) ->
  nth_error s (cl_scanline_img cl) = Some (ImageRGBA sc) ->
  nth_error s (cl_vignette cl) = Some (NdarrayF v) ->
  shape2 f h w -> shape2 noise h w -> shape2 sc h w -> shape2 v h w ->
  exists (out : loc) (s' : store) (result : image_rgb),
    effect_program cl noise frame s = Some (out, s') /\
    nth_error s out = None /\
    nth_error s' out = Some (Ndarray result) /\
    result = effect {| width := cl_width cl;
                       scanline_img := sc;
                       vignette := v |} noise f /\
    shape2 result h w /\
    (forall l o, nth_error s l = Some o -> nth_error s' l = Some o) /\
    nth_error s' frame = Some (Ndarray f).
Proof.
  intros Hframe Hscan Hvign Hf Hn Hsc Hv.
  set (pl := {| width := cl_width cl; scanline_img := sc; vignette := v |}).
  assert (Hrun : exists (k : nat) (tl : store),
             effect_program cl noise frame (s ++ [])
             = Some ((length s + k)%nat, s ++ tl) /\
             nth_error tl k = Some (Ndarray (effect pl noise f))).
  { unfold effect_program.
    do 3 (exec_get; exec_step).
    exec_get; exec_step.
    do 3 exec_get. exec_step.
    exec_get; exec_step.
    exec_get; exec_step.
    exec_step.
    do 2 exec_get. exec_step.
    do 4 (exec_get; exec_step).
    do 2 exec_get. exec_step.
    do 2 (exec_get; exec_step).
    do 2 exec_get. exec_step.
    exec_get; exec_step.
    unfold ret. eexists _, _. split; reflexivity. }
  destruct Hrun as (k & tl & Hrun & Hout).
  rewrite app_nil_r in Hrun.
  exists (length s + k)%nat, (s ++ tl), (effect pl noise f).
  split; [exact Hrun|].
  split; [apply nth_error_None; lia|].
  split; [now rewrite nth_error_new|].
  split; [reflexivity|].
  split; [apply (shape2_effect (L := L) pl); assumption|].
  split.
  - intros l o Hl. now apply nth_error_old.
  - now apply nth_error_old.
Qed.

(* ================================================================== *)
(** * The theorems on small inputs *)

Ltac shape_ok := split; [reflexivity|repeat constructor].
Ltac u8_ok := repeat constructor; unfold is_u8; simpl; lia.

Lemma chromatic_aberration_rotates_witness :
  let pl := Demo.pipeline_of (F := IEEE) [] in
  let out := chromatic_aberration pl (astype_int16 Demo.frame) in
  shift pl = Z.max 1 (2 * (width pl / 640)) /\
  shape2 out 1 4 /\
  forall y c px, at2 Demo.frame y c = Some px ->
    exists r g b,
      at2 out y (Z.to_nat ((Z.of_nat c - shift pl) mod width pl)) = Some r /\
      ch0 r = ch0 px /\
      at2 out y c = Some g /\
      ch1 g = ch1 px /\
      at2 out y (Z.to_nat ((Z.of_nat c + shift pl) mod width pl)) = Some b /\
      ch2 b = ch2 px.
Proof.
  apply (chromatic_aberration_rotates (Demo.pipeline_of (F := IEEE) [])
           Demo.frame 1 4).
  - shape_ok.
  - u8_ok.
  - reflexivity.
Defined.

Lemma vignette_mask_formula_witness :
  let mask := make_vignette_mask (F := Real) 4 2 (1 / 2)%R in
  (forall x y, 0 <= x < 4 -> 0 <= y < 2 ->
     at2 mask (Z.to_nat y) (Z.to_nat x)
     = Some (let v := Spec.vignette 4 2 (1 / 2) x y in Px3 v v v) /\
     (Spec.dist (IZR x) (IZR y) (IZR 4 / 2) (IZR 2 / 2)
      <= Spec.dist 0 0 (IZR 4 / 2) (IZR 2 / 2))%R) /\
  (forall x y, 2 * x = 4 -> 2 * y = 2 ->
     at2 mask (Z.to_nat y) (Z.to_nat x) = Some (Px3 1 1 1)%R) /\
  at2 mask 0 0 = Some (Px3 (1 - 1 / 2) (1 - 1 / 2) (1 - 1 / 2))%R.
Proof.
  apply (vignette_mask_formula 4 2 (1 / 2)%R); [lia|lia|lra].
Defined.



Lemma vignette_mask_monotone_witness :
  (ch0 (Px3 (1 - 1 / 2) (1 - 1 / 2) (1 - 1 / 2)) <= ch0 (Px3 1 1 1) /\
   ch1 (Px3 (1 - 1 / 2) (1 - 1 / 2) (1 - 1 / 2)) <= ch1 (Px3 1 1 1) /\
   ch2 (Px3 (1 - 1 / 2) (1 - 1 / 2) (1 - 1 / 2)) <= ch2 (Px3 1 1 1))%R.
Proof.
  apply (vignette_mask_monotone 4 4 (1 / 2)%R 2 2 0 0); try lia; try lra.
  - rewrite at2_make_vignette_mask by (simpl; lia). cbv zeta.
    rewrite vignette_value_Real. change (Z.of_nat 2) with 2.
    now rewrite (vignette_spec_centre 4 4 (1 / 2) 2 2) by reflexivity.
  - rewrite at2_make_vignette_mask by (simpl; lia). cbv zeta.
    rewrite vignette_value_Real. change (Z.of_nat 0) with 0.
    now rewrite (vignette_spec_corner 4 4 (1 / 2)) by (lia || lra).
  - unfold Spec.dist. apply sqrt_lt_1_alt. simpl. lra.
Defined.

Lemma effect_leaves_frame_unchanged_witness :
  exists (out : loc) (s' : store (F := IEEE)) (result : image_rgb),
    effect_program (F := IEEE) (P := plain_pillow) Demo.closure0 Demo.noise
                   0%nat Demo.store0 = Some (out, s') /\
    nth_error Demo.store0 out = None /\
    nth_error s' out = Some (Ndarray result) /\
    result = effect (F := IEEE) (P := plain_pillow)
                    {| width := cl_width Demo.closure0;
                       scanline_img := Demo.scan;
                       vignette := Demo.mask |} Demo.noise Demo.frame /\
    shape2 result 1 4 /\
    (forall l o, nth_error Demo.store0 l = Some o -> nth_error s' l = Some o) /\
    nth_error s' 0%nat = Some (Ndarray Demo.frame).
Proof.
  apply (effect_leaves_frame_unchanged plain_pillow plain_pillow_laws
           Demo.closure0 Demo.store0 0%nat Demo.frame Demo.noise Demo.scan
           Demo.mask 1 4);
    try reflexivity; shape_ok.
Defined.


Lemma scanline_loop_terminates_witness :
  (forall y im st',
     scanline_step (P := plain_pillow) 2 4 1 2 20 (y, im) = Some st' ->
     y < 4 /\ fst st' = y + (1 + 2) /\ y < fst st') /\
  exists y' img',
    (forall fuel, (Z.to_nat 4 < fuel)%nat ->
       scanline_loop (P := plain_pillow) fuel 2 4 1 2 20 (0, [])
       = Returns (y', img')) /\
    4 <= y' < 4 + (1 + 2).
Proof.
  apply (scanline_loop_terminates plain_pillow 2 4 1 2 20 []); lia.
Defined.

(* ================================================================== *)
(** * Further properties: the channel shift *)

Lemma roll_Permutation {A} (s : Z) (row : list A) :
  Permutation (Numpy.roll s row) row.
Proof.
  unfold Numpy.roll. set (k := Z.to_nat _).
  rewrite <- (firstn_skipn k row) at 3. apply Permutation_app_comm.
Qed.

Lemma map3_Px3_channels {A} (r g b : list A) :
  length r = length g -> length r = length b ->
  map ch0 (map3 Px3 r g b) = r /\
  map ch1 (map3 Px3 r g b) = g /\
  map ch2 (map3 Px3 r g b) = b.
Proof.
  revert g b. induction r as [|x r IH]; intros [|y g] [|z b] H1 H2;
    simpl in *; try discriminate; [repeat split|].
  destruct (IH g b) as (E0 & E1 & E2); [lia|lia|].
  now rewrite E0, E1, E2.
Qed.

Lemma map_px3_wrap16_u8 (row : list (px3 Z)) :
  Forall (px3_all is_u8) row -> map (px3_map Numpy.wrap16) row = row.
Proof.
  induction 1 as [|[a b c] row (H0 & H1 & H2) _ IH]; simpl; [reflexivity|].
  rewrite IH. unfold px3_map; simpl in *. now rewrite !wrap16_u8.
Qed.

(** One row of the result of the stage, from the same row of the frame. *)
Lemma chromatic_aberration_row {F : Arith} (pl : pipeline) (img : image_rgb)
    (y : nat) (row : list (px3 Z)) :
  nth_error img y = Some row ->
  nth_error (chromatic_aberration pl img) y
  = Some (map (px3_map Numpy.wrap16)
              (map3 Px3 (Numpy.roll (- shift pl) (map ch0 row))
                        (map ch1 row)
                        (Numpy.roll (shift pl) (map ch2 row)))).
Proof.
  intros H. unfold chromatic_aberration, amap, Numpy.stack_axis2,
    Numpy.roll_axis1.
  apply map_nth_error. apply nth_error_map3; repeat apply map_nth_error;
    assumption.
Qed.

(** X1. On every 8-bit frame whose rows have one length, whatever the bound
    width is, each row of the red channel and of the blue channel after the
    chromatic aberration stage is a rearrangement of the same row before
    it, and the green channel is the same: the stage moves samples, it
    drops none and invents none. *)
Theorem chromatic_aberration_permutes {F : Arith} (pl : pipeline)
    (frame : image_rgb) (h w : nat) (y : nat) (row_in : list (px3 Z)) :
  shape2 frame h w -> rgb_u8 frame ->
  nth_error frame y = Some row_in ->
  exists row_out,
    nth_error (chromatic_aberration pl (astype_int16 frame)) y = Some row_out /\
    Permutation (map ch0 row_out) (map ch0 row_in) /\
    map ch1 row_out = map ch1 row_in /\
    Permutation (map ch2 row_out) (map ch2 row_in).
Proof.
  intros [Hl Hr] Hu Hy.
  assert (Hrow_u8 : Forall (px3_all is_u8) row_in).
  { unfold rgb_u8, all2 in Hu. rewrite Forall_forall in Hu. apply Hu.
    eapply nth_error_In; eauto. }
  assert (H16 : nth_error (astype_int16 frame) y = Some row_in).
  { unfold astype_int16, amap. rewrite (map_nth_error _ _ _ Hy).
    now rewrite map_px3_wrap16_u8. }
  eexists. split.
  - apply (chromatic_aberration_row pl _ y row_in). exact H16.
  - set (R := Numpy.roll (- shift pl) (map ch0 row_in)).
    set (G := map ch1 row_in).
    set (B := Numpy.roll (shift pl) (map ch2 row_in)).
    assert (LR : length R = length G)
      by (unfold R, G; now rewrite roll_length, !length_map).
    assert (LB : length R = length B)
      by (unfold R, B; now rewrite !roll_length, !length_map).
    destruct (map3_Px3_channels R G B LR LB) as (E0 & E1 & E2).
    assert (Hu8 : Forall (px3_all is_u8) (map3 Px3 R G B)).
    { apply Forall_map3. intros a b c Ia Ib Ic.
      assert (HR : Forall is_u8 R).
      { apply Forall_roll, Forall_map. revert Hrow_u8. apply Forall_impl.
        intros p Hp. apply Hp. }
      assert (HG : Forall is_u8 G).
      { apply Forall_map. revert Hrow_u8. apply Forall_impl.
        intros p Hp. apply Hp. }
      assert (HB : Forall is_u8 B).
      { apply Forall_roll, Forall_map. revert Hrow_u8. apply Forall_impl.
        intros p Hp. apply Hp. }
      rewrite Forall_forall in HR, HG, HB.
      split; [|split]; simpl; auto. }
    rewrite (map_px3_wrap16_u8 _ Hu8), E0, E1, E2.
    repeat split; [apply roll_Permutation|apply roll_Permutation].
Qed.

Lemma chromatic_aberration_permutes_witness :
  exists row_out,
    nth_error (chromatic_aberration (Demo.pipeline_of (F := IEEE) [])
                                    (astype_int16 Demo.frame)) 0
    = Some row_out /\
    Permutation (map ch0 row_out) (map ch0 (hd [] Demo.frame)) /\
    map ch1 row_out = map ch1 (hd [] Demo.frame) /\
    Permutation (map ch2 row_out) (map ch2 (hd [] Demo.frame)).
Proof.
  apply (chromatic_aberration_permutes (Demo.pipeline_of (F := IEEE) [])
           Demo.frame 1 4 0 (hd [] Demo.frame)).
  - shape_ok.
  - u8_ok.
  - reflexivity.
Defined.




(** X3. [process] never builds the pipeline for a width above 1280, so for
    a clip of any positive width the channel shift of the pipeline it
    builds is 1 pixel below width 640, 2 pixels from 640 to 1279, and 4
    pixels at 1280: never more than 4. *)
Theorem process_shift {F : Arith} (P : Pillow) (fuel : nat)
    (clip_w h : Z) (pl : pipeline) :
  0 < clip_w ->
  frame_effect_factory fuel (process_width clip_w) h = Returns pl ->
  width pl = Z.min clip_w 1280 /\
  shift pl = (if width pl <? 640 then 1 else if width pl <? 1280 then 2 else 4).
Proof.
  intros Hc Hpl.
  assert (Hw : width pl = process_width clip_w).
  { revert Hpl. unfold frame_effect_factory.
    destruct (make_scanline_image _ _ _ _ _ _) as [scan| |]; cbn [obind];
      try discriminate.
    intros H. now inversion H. }
  assert (Hp : process_width clip_w = Z.min clip_w 1280).
  { unfold process_width, target_w. destruct (Z.gtb_spec clip_w 1280); lia. }
  split; [congruence|].
  unfold shift. rewrite Hw, Hp.
  set (w := Z.min clip_w 1280). assert (Hb : 0 < w <= 1280) by (unfold w; lia).
  destruct (Z.ltb_spec w 640).
  - rewrite Z.div_small by lia. reflexivity.
  - destruct (Z.ltb_spec w 1280).
    + replace (w / 640) with 1; [reflexivity|].
      apply Z.div_unique with (r := w - 640); lia.
    + replace w with 1280 by lia. reflexivity.
Qed.

Lemma process_shift_witness :
  width (Demo.factory_1080p) = Z.min 1920 1280 /\
  shift (Demo.factory_1080p)
  = (if width (Demo.factory_1080p) <? 640 then 1
     else if width (Demo.factory_1080p) <? 1280 then 2 else 4).
Proof.
  apply (process_shift (F := IEEE) plain_pillow 2 1920 1 Demo.factory_1080p);
    [lia|].
  change (process_width 1920) with 1280.
  unfold frame_effect_factory, Demo.factory_1080p.
  replace (make_scanline_image (F := IEEE) (P := plain_pillow) 2 1280 1
                               (literal 8 100) 1 2)
    with (Returns (GaussianBlur (Pillow := plain_pillow) (1 # 2)
                                [repeat (Px4 0 0 0 20) 1280]))
    by (vm_compute; reflexivity).
  reflexivity.
Defined.

(* ================================================================== *)
(** * Further properties: contrast and grain *)

(** Lines 75-76 in integers: on an 8-bit sample the float64 computation
    gives [(53 v - 184) / 50], rounded down and clamped. *)
Lemma contrast_sample_closed (v : Z) :
  is_u8 v ->
  contrast_sample (F := IEEE) v = Z.min 255 (Z.max 0 ((53 * v - 184) / 50)).
Proof.
  intros Hv.
  assert (H : forallb (fun v => contrast_sample (F := IEEE) v
                                =? Z.min 255 (Z.max 0 ((53 * v - 184) / 50)))
                      (Numpy.arange 256) = true) by (vm_compute; reflexivity).
  rewrite forallb_forall in H. apply Z.eqb_eq, H, In_arange.
  unfold is_u8 in Hv. lia.
Qed.

(** X4. The contrast/brightness stage, as float64 computes it, keeps the
    order of 8-bit samples: a sample that is not below another is not below
    it afterwards.  Exactly the samples 0..4 are crushed to 0 and exactly
    the samples 245..255 are clipped to 255; between 4 and 245 different
    samples stay different. *)
Theorem contrast_sample_order (v1 v2 : Z) :
  is_u8 v1 -> is_u8 v2 -> v1 <= v2 ->
  contrast_sample (F := IEEE) v1 <= contrast_sample (F := IEEE) v2 /\
  (contrast_sample (F := IEEE) v1 = 0 <-> v1 <= 4) /\
  (contrast_sample (F := IEEE) v1 = 255 <-> 245 <= v1) /\
  (4 <= v1 -> v2 <= 245 -> v1 < v2 ->
   contrast_sample (F := IEEE) v1 < contrast_sample (F := IEEE) v2).
Proof.
  intros H1 H2 Hle.
  rewrite !contrast_sample_closed by assumption.
  unfold is_u8 in *.
  set (q1 := (53 * v1 - 184) / 50). set (q2 := (53 * v2 - 184) / 50).
  assert (E1 : 50 * q1 <= 53 * v1 - 184 < 50 * q1 + 50).
  { unfold q1. pose proof (Z.div_mod (53 * v1 - 184) 50 ltac:(lia)).
    pose proof (Z.mod_pos_bound (53 * v1 - 184) 50 ltac:(lia)). lia. }
  assert (E2 : 50 * q2 <= 53 * v2 - 184 < 50 * q2 + 50).
  { unfold q2. pose proof (Z.div_mod (53 * v2 - 184) 50 ltac:(lia)).
    pose proof (Z.mod_pos_bound (53 * v2 - 184) 50 ltac:(lia)). lia. }
  repeat split; try lia.
Qed.

Lemma contrast_sample_order_witness :
  contrast_sample (F := IEEE) 100 <= contrast_sample (F := IEEE) 101 /\
  (contrast_sample (F := IEEE) 100 = 0 <-> 100 <= 4) /\
  (contrast_sample (F := IEEE) 100 = 255 <-> 245 <= 100) /\
  (4 <= 100 -> 101 <= 245 -> 100 < 101 ->
   contrast_sample (F := IEEE) 100 < contrast_sample (F := IEEE) 101).
Proof.
  apply (contrast_sample_order 100 101); unfold is_u8; lia.
Defined.

(** X5. The grain stage on one sample: as long as sample plus noise fits
    int16 the result is their sum clamped to [0,255], so zero noise changes
    nothing and the sample moves by at most the size of the noise; when the
    sum exceeds 32767 the int16 addition wraps and the sample comes out
    as 0, not as 255. *)
Theorem grain_sample_sum (c n : Z) :
  is_u8 c -> -32768 <= n <= 32767 ->
  (c + n <= 32767 ->
   grain_sample c n = Z.min 255 (Z.max 0 (c + n)) /\
   Z.abs (grain_sample c n - c) <= Z.abs n) /\
  (32767 < c + n -> grain_sample c n = 0) /\
  grain_sample c 0 = c.
Proof.
  intros Hc Hn. unfold is_u8 in Hc.
  assert (Hw : Numpy.wrap16 c = c) by (apply wrap16_small; lia).
  assert (H0 : grain_sample c 0 = c).
  { unfold grain_sample. rewrite Hw, Z.add_0_r, Hw.
    unfold Numpy.clip_int, Numpy.uint8_of_int.
    rewrite Z.mod_small; lia. }
  split; [|split; [|exact H0]].
  - intros Hs. unfold grain_sample. rewrite Hw.
    rewrite (wrap16_small (c + n)) by lia.
    unfold Numpy.clip_int, Numpy.uint8_of_int.
    rewrite Z.mod_small by lia. lia.
  - intros Hs. unfold grain_sample. rewrite Hw.
    assert (E : Numpy.wrap16 (c + n) = c + n - 65536).
    { unfold Numpy.wrap16.
      replace ((c + n + 32768) mod 65536) with (c + n + 32768 - 65536); [lia|].
      apply Z.mod_unique with (q := 1); lia. }
    rewrite E. unfold Numpy.clip_int, Numpy.uint8_of_int.
    replace (Z.min (Z.max (c + n - 65536) 0) 255) with 0 by lia. reflexivity.
Qed.

Lemma grain_sample_sum_witness :
  (250 + 32767 <= 32767 ->
   grain_sample 250 32767 = Z.min 255 (Z.max 0 (250 + 32767)) /\
   Z.abs (grain_sample 250 32767 - 250) <= Z.abs 32767) /\
  (32767 < 250 + 32767 -> grain_sample 250 32767 = 0) /\
  grain_sample 250 0 = 250.
Proof.
  apply (grain_sample_sum 250 32767); unfold is_u8; lia.
Defined.

(* ================================================================== *)
(** * Further properties: the vignette *)

Lemma map2_repeat_r {A B C} (f : A -> B -> C) (l : list A) (b : B) (n : nat) :
  length l = n -> map2 f l (repeat b n) = map (fun a => f a b) l.
Proof.
  revert n. induction l as [|a l IH]; intros [|n] H; simpl in *;
    try discriminate; [reflexivity|].
  f_equal. apply IH. lia.
Qed.

Lemma amap2_uniform_r {A B C} (f : A -> B -> C) (a : array2 A) (b : B)
    (h w : nat) :
  shape2 a h w -> amap2 f a (uniform_rows b h w) = amap (fun x => f x b) a.
Proof.
  intros [Hl Hr]. unfold amap2, uniform_rows, amap.
  rewrite map2_repeat_r by assumption.
  apply map_ext_in. intros row Hrow. apply map2_repeat_r.
  rewrite Forall_forall in Hr. auto.
Qed.

Lemma amap_amap {A B C} (f : A -> B) (g : B -> C) (a : array2 A) :
  amap g (amap f a) = amap (fun x => g (f x)) a.
Proof.
  unfold amap. rewrite map_map. apply map_ext. intros row. apply map_map.
Qed.

Lemma amap_id_on {A} (P : A -> Prop) (f : A -> A) (a : array2 A) :
  (forall v, P v -> f v = v) -> all2 P a -> amap f a = a.
Proof.
  intros Hf Ha. unfold amap, all2 in *.
  rewrite <- (map_id a) at 2. apply map_ext_in. intros row Hrow.
  rewrite Forall_forall in Ha. specialize (Ha _ Hrow).
  rewrite <- (map_id row) at 2. apply map_ext_in. intros v Hv.
  rewrite Forall_forall in Ha. auto.
Qed.

Lemma all2_of_at2 {A} (P : A -> Prop) (a : array2 A) :
  (forall y x v, at2 a y x = Some v -> P v) -> all2 P a.
Proof.
  intros H. unfold all2. apply Forall_forall. intros row Hrow.
  apply Forall_forall. intros v Hv.
  destruct (In_nth_error _ _ Hrow) as [y Hy].
  destruct (In_nth_error _ _ Hv) as [x Hx].
  apply (H y x). unfold at2. now rewrite Hy.
Qed.

(** Under the float32 mask value 1.0 the float32 round trip of lines 94-96
    gives back each of the 256 samples. *)
Lemma vignette_sample_one (p : Z) :
  is_u8 p -> vignette_sample (F := IEEE) p (to_f32 (literal 1 1)) = p.
Proof.
  intros Hp.
  assert (H : forallb (fun p => vignette_sample (F := IEEE) p
                                  (to_f32 (literal 1 1)) =? p)
                      (Numpy.arange 256) = true) by (vm_compute; reflexivity).
  rewrite forallb_forall in H. apply Z.eqb_eq, H, In_arange.
  unfold is_u8 in Hp. lia.
Qed.

(** Lines 94-96 under a float32 mask of ones. *)
Lemma apply_vignette_ones_mask (pl : pipeline (F := IEEE))
    (pil2 : image_rgb) (h w : nat) :
  shape2 pil2 h w -> rgb_u8 pil2 -> vignette pl = ones_mask h w ->
  apply_vignette pl pil2 = pil2.
Proof.
  intros Hs Hu Hm.
  unfold apply_vignette, denormalize, multiply, normalize, clip_uint8.
  rewrite Hm. unfold ones_mask. cbv zeta.
  rewrite amap2_uniform_r by (apply shape2_amap; exact Hs).
  rewrite !amap_amap.
  apply amap_id_on with (P := px3_all is_u8); [|exact Hu].
  intros [a b c] (Ha & Hb & Hc). unfold px3_map, px3_map2; simpl in *.
  f_equal; [exact (vignette_sample_one a Ha)
           |exact (vignette_sample_one b Hb)
           |exact (vignette_sample_one c Hc)].
Qed.

(** X6. A vignette mask of ones switches the vignette stage off exactly:
    in float32 arithmetic, as the script computes it, every 8-bit frame of
    the mask's size comes out of lines 94-96 unchanged, the division by
    255.0 and the multiplication by 255.0 losing nothing. *)
Theorem vignette_ones_identity (pl : pipeline (F := IEEE))
    (pil2 : image_rgb) (h w : nat) :
  shape2 pil2 h w -> rgb_u8 pil2 -> vignette pl = ones_mask h w ->
  apply_vignette pl pil2 = pil2.
Proof.
  intros Hs Hu Hm. exact (apply_vignette_ones_mask pl pil2 h w Hs Hu Hm).
Qed.

Lemma vignette_ones_identity_witness :
  apply_vignette (F := IEEE)
                 {| width := 4; scanline_img := []; vignette := ones_mask 1 4 |}
                 Demo.frame
  = Demo.frame.
Proof.
  apply (vignette_ones_identity
           {| width := 4; scanline_img := [];
              vignette := ones_mask (F := IEEE) 1 4 |}
           Demo.frame 1 4).
  - shape_ok.
  - u8_ok.
  - reflexivity.
Defined.

Section VignetteBounds.
Local Open Scope R_scope.



Lemma vignette_spec_mirror (w h : Z) (s : R) (x y : Z) :
  Spec.vignette w h s (w - x) y = Spec.vignette w h s x y /\
  Spec.vignette w h s x (h - y) = Spec.vignette w h s x y.
Proof.
  unfold Spec.vignette, Spec.dist. rewrite !minus_IZR.
  split; do 4 f_equal; f_equal; f_equal; lra || ring.
Qed.


End VignetteBounds.



(** X8. The vignette mask is mirrored about column [w/2] and about row
    [h/2] (floats taken as reals): column [x] equals column [w - x] for
    [1 <= x <= w - 1], and row [y] equals row [h - y] for
    [1 <= y <= h - 1].  Column 0 and row 0, which would be mirrored onto
    column [w] and row [h], have no partner in the mask. *)
Theorem vignette_mask_mirror (w h : Z) (s : R) (x y : Z) :
  0 <= x < w -> 0 <= y < h ->
  let mask := make_vignette_mask (F := Real) w h s in
  (1 <= x -> at2 mask (Z.to_nat y) (Z.to_nat (w - x))
             = at2 mask (Z.to_nat y) (Z.to_nat x)) /\
  (1 <= y -> at2 mask (Z.to_nat (h - y)) (Z.to_nat x)
             = at2 mask (Z.to_nat y) (Z.to_nat x)).
Proof.
  intros Hx Hy mask. unfold mask.
  destruct (vignette_spec_mirror w h s x y) as [Mx My].
  split; intros H1; rewrite !at2_make_vignette_mask by lia; cbv zeta;
    rewrite !vignette_value_Real, !Z2Nat.id by lia.
  - now rewrite Mx.
  - now rewrite My.
Qed.

Lemma vignette_mask_mirror_witness :
  let mask := make_vignette_mask (F := Real) 4 4 (1 / 2)%R in
  (1 <= 1 -> at2 mask (Z.to_nat 3) (Z.to_nat (4 - 1))
             = at2 mask (Z.to_nat 3) (Z.to_nat 1)) /\
  (1 <= 3 -> at2 mask (Z.to_nat (4 - 3)) (Z.to_nat 1)
             = at2 mask (Z.to_nat 3) (Z.to_nat 1)).
Proof.
  apply (vignette_mask_mirror 4 4 (1 / 2)%R 1 3); lia.
Defined.



(* ================================================================== *)
(** * Further properties: the scanline generator and the factory *)




(** X11. A negative width or height makes the generator, and with it the
    factory, raise ValueError: [Image.new] on line 25 raises before anything
    is drawn, whatever the other parameters and the fuel are. *)
Theorem negative_size_raises {F : Arith} (P : Pillow) (fuel : nat)
    (w h line_height gap : Z) (intensity : num F) :
  w < 0 \/ h < 0 ->
  make_scanline_image fuel w h intensity line_height gap
  = Raises (ValueError "Width and height must be >= 0") /\
  frame_effect_factory fuel w h
  = Raises (ValueError "Width and height must be >= 0").
Proof.
  intros H.
  assert (E : (w <? 0) || (h <? 0) = true).
  { apply orb_true_iff. destruct H; [left|right]; apply Z.ltb_lt; lia. }
  unfold frame_effect_factory, make_scanline_image, scanline_canvas,
    PIL.Image_new.
  rewrite E. split; reflexivity.
Qed.

Lemma negative_size_raises_witness :
  make_scanline_image (F := IEEE) (P := plain_pillow) 5 (-1) 4 (literal 8 100)
                      1 2
  = Raises (ValueError "Width and height must be >= 0") /\
  frame_effect_factory (F := IEEE) (P := plain_pillow) 5 (-1) 4
  = Raises (ValueError "Width and height must be >= 0").
Proof.
  apply (negative_size_raises (F := IEEE) plain_pillow 5 (-1) 4 1 2
           (literal 8 100)).
  left. lia.
Defined.

(** X12. An intensity that is not a finite number is rejected by [int()] on
    line 27, in binary64 as Python computes it: for sizes >= 0 a NaN
    intensity raises ValueError and an infinite one raises OverflowError,
    whatever the line height, the gap and the fuel are. *)
Theorem non_finite_intensity_raises (P : Pillow) (fuel : nat)
    (w h line_height gap : Z) (sign : bool) :
  0 <= w -> 0 <= h ->
  make_scanline_image (F := IEEE) fuel w h S754_nan line_height gap
  = Raises (ValueError "cannot convert float NaN to integer") /\
  make_scanline_image (F := IEEE) fuel w h (S754_infinity sign) line_height gap
  = Raises (OverflowError "cannot convert float infinity to integer").
Proof.
  intros Hw Hh.
  unfold make_scanline_image, scanline_canvas, PIL.Image_new.
  replace (w <? 0) with false by (symmetry; apply Z.ltb_ge; lia).
  replace (h <? 0) with false by (symmetry; apply Z.ltb_ge; lia).
  cbn [orb obind]. split; [reflexivity|].
  destruct sign; reflexivity.
Qed.

Lemma non_finite_intensity_raises_witness :
  make_scanline_image (F := IEEE) (P := plain_pillow) 5 4 4 S754_nan 1 2
  = Raises (ValueError "cannot convert float NaN to integer") /\
  make_scanline_image (F := IEEE) (P := plain_pillow) 5 4 4
                      (S754_infinity false) 1 2
  = Raises (OverflowError "cannot convert float infinity to integer").
Proof.
  apply (non_finite_intensity_raises plain_pillow 5 4 4 1 2 false); lia.
Defined.

(** X13. What the factory builds, in binary64 as Python computes it: for
    width >= 0 and height >= 0 it returns a pipeline of that width whose
    vignette is the mask of strength 0.45 and whose scanline image is the
    radius-0.5 blur of the image with colour (0,0,0) and alpha
    [int(255 * 0.08) = 20] on the rows 0, 3, 6, ... and alpha 0 on the
    other rows. *)
Theorem frame_effect_factory_default (P : Pillow) (L : PillowLaws P)
    (w h : Z) :
  0 <= w -> 0 <= h ->
  exists canvas,
    frame_effect_factory (F := IEEE) (S (Z.to_nat h)) w h
    = Returns {| width := w;
                 scanline_img := GaussianBlur (1 # 2) canvas;
                 vignette := make_vignette_mask w h (literal 45 100) |} /\
    shape2 canvas (Z.to_nat h) (Z.to_nat w) /\
    forall y x : nat, (y < Z.to_nat h)%nat -> (x < Z.to_nat w)%nat ->
      at2 canvas y x
      = Some (Px4 0 0 0 (if Z.of_nat y mod 3 =? 0 then 20 else 0)).
Proof.
  intros Hw Hh.
  destruct (scanline_loop_bands w h 1 2 20 (S (Z.to_nat h))
              Hw Hh ltac:(lia) ltac:(lia) ltac:(lia))
    as (img0 & y' & img' & Hnew & Hrun & Hs & Hpx).
  exists img'. split; [|split; [exact Hs|]].
  - unfold frame_effect_factory, make_scanline_image, scanline_canvas.
    rewrite Hnew. cbn [obind].
    change (to_int (F := IEEE) (fmul (of_int 255) (literal 8 100)))
      with (Returns (A := Z) 20).
    cbn [obind]. rewrite Hrun. reflexivity.
  - intros y x Hy Hx. rewrite (Hpx y x Hy Hx). f_equal.
    unfold scan_pixel, PIL.ink; simpl.
    rewrite (getink_u8 0) by (unfold is_u8; lia).
    rewrite (getink_u8 20) by (unfold is_u8; lia).
    change (1 + 2) with 3.
    pose proof (Z.mod_pos_bound (Z.of_nat y) 3 ltac:(lia)).
    destruct (Z.ltb_spec (Z.of_nat y mod 3) 1);
      destruct (Z.eqb_spec (Z.of_nat y mod 3) 0); try lia; reflexivity.
Qed.

Lemma frame_effect_factory_default_witness :
  exists canvas,
    frame_effect_factory (F := IEEE) (P := plain_pillow) (S (Z.to_nat 4)) 2 4
    = Returns {| width := 2;
                 scanline_img :=
                   GaussianBlur (Pillow := plain_pillow) (1 # 2) canvas;
                 vignette := make_vignette_mask 2 4 (literal 45 100) |} /\
    shape2 canvas (Z.to_nat 4) (Z.to_nat 2) /\
    forall y x : nat, (y < Z.to_nat 4)%nat -> (x < Z.to_nat 2)%nat ->
      at2 canvas y x
      = Some (Px4 0 0 0 (if Z.of_nat y mod 3 =? 0 then 20 else 0)).
Proof.
  apply (frame_effect_factory_default plain_pillow plain_pillow_laws 2 4); lia.
Defined.

(* ================================================================== *)
(** * Further properties: the whole of effect *)

Lemma uint8_of_float_u8 {F : Arith} (x : num F) :
  is_u8 (Numpy.uint8_of_float x).
Proof.
  unfold Numpy.uint8_of_float, is_u8. destruct (to_int x) as [z| |]; try lia.
  pose proof (Z.mod_pos_bound z 256 ltac:(lia)). lia.
Qed.

Lemma rgb_u8_clip_uint8 {F : Arith} (lo hi : num F) a :
  rgb_u8 (clip_uint8 lo hi a).
Proof.
  unfold rgb_u8, clip_uint8. apply all2_amap_any. intros [x y z].
  repeat split; simpl; apply uint8_of_float_u8.
Qed.

(** X14. The pipeline that [frame_effect_factory] returns for a width and a
    height maps every frame of that size, with noise of that size, to an
    8-bit frame of that size: its result can be handed to the encoder and
    the same pipeline serves every frame of the clip. *)
Theorem factory_effect_closed {F : Arith} (P : Pillow) (L : PillowLaws P)
    (fuel : nat) (w h : Z) (pl : pipeline) (noise frame : image_rgb) :
  frame_effect_factory fuel w h = Returns pl ->
  shape2 frame (Z.to_nat h) (Z.to_nat w) ->
  shape2 noise (Z.to_nat h) (Z.to_nat w) ->
  shape2 (effect pl noise frame) (Z.to_nat h) (Z.to_nat w) /\
  rgb_u8 (effect pl noise frame).
Proof.
  intros Hpl Hf Hn.
  destruct (frame_effect_factory_shapes P L fuel w h pl Hpl) as (_ & Hs & Hv).
  split.
  - now apply (shape2_effect (L := L)).
  - unfold effect, effect_stages; simpl. unfold apply_vignette, denormalize.
    apply rgb_u8_clip_uint8.
Qed.

Lemma factory_effect_closed_witness :
  shape2 (effect (P := plain_pillow) Demo.factory_1080p
                 (zero_noise 1 1280) (uniform_frame 128 1 1280))
         (Z.to_nat 1) (Z.to_nat 1280) /\
  rgb_u8 (effect (P := plain_pillow) Demo.factory_1080p
                 (zero_noise 1 1280) (uniform_frame 128 1 1280)).
Proof.
  apply (factory_effect_closed (F := IEEE) plain_pillow plain_pillow_laws
           2 1280 1 Demo.factory_1080p).
  - unfold frame_effect_factory, Demo.factory_1080p.
    replace (make_scanline_image (F := IEEE) (P := plain_pillow) 2 1280 1
                                 (literal 8 100) 1 2)
      with (Returns (GaussianBlur (Pillow := plain_pillow) (1 # 2)
                                  [repeat (Px4 0 0 0 20) 1280]))
      by (vm_compute; reflexivity).
    reflexivity.
  - shape_ok.
  - shape_ok.
Defined.

Lemma grain_sample_zero (c : Z) : is_u8 c -> grain_sample c 0 = c.
Proof.
  intros Hc. unfold is_u8 in Hc. unfold grain_sample.
  rewrite (wrap16_small c) by lia. rewrite Z.add_0_r, (wrap16_small c) by lia.
  unfold Numpy.clip_int, Numpy.uint8_of_int. rewrite Z.mod_small; lia.
Qed.

Lemma film_grain_zero_noise (combined : image_rgb) (h w : nat) :
  shape2 combined h w -> rgb_u8 combined ->
  film_grain (zero_noise h w) combined = combined.
Proof.
  intros Hs Hu. unfold film_grain, zero_noise.
  rewrite amap2_uniform_r by exact Hs.
  apply amap_id_on with (P := px3_all is_u8); [|exact Hu].
  intros [a b c] (Ha & Hb & Hc). unfold px3_map2; simpl in *.
  now rewrite !grain_sample_zero.
Qed.

Lemma convert_RGB_RGBA (im : image_rgb) :
  PIL.convert_RGB (PIL.convert_RGBA im) = im.
Proof.
  unfold PIL.convert_RGB, PIL.convert_RGBA. rewrite amap_amap.
  apply amap_id_on with (P := fun _ => True).
  - intros [a b c] _. reflexivity.
  - apply all2_of_at2. auto.
Qed.

(** X15. With every optional stage neutral, [effect] is the contrast stage
    after the channel shift, exactly, in the arithmetic the script uses:
    when the noise is zero, the vignette mask is all ones, and the unsharp
    mask and the scanline overlay leave the graded image as it is (as
    Pillow does on a uniform image under a fully transparent overlay), the
    grain stage, the two conversions and the float32 vignette stage change
    no sample. *)
Theorem effect_neutral (P : Pillow) (pl : pipeline (F := IEEE))
    (frame : image_rgb) (h w : nat) :
  shape2 frame h w -> rgb_u8 frame -> vignette pl = ones_mask h w ->
  let graded :=
    contrast_brightness (F := IEEE)
      (chromatic_aberration pl (astype_int16 frame)) in
  UnsharpMask 1 120 3 graded = graded ->
  alpha_composite (PIL.convert_RGBA graded) (scanline_img pl)
  = PIL.convert_RGBA graded ->
  effect pl (zero_noise h w) frame = graded.
Proof.
  intros Hs Hu Hm graded Hsharp Hover.
  assert (Hgs : shape2 graded h w).
  { unfold graded, contrast_brightness, clip_uint8, gain_bias.
    do 2 apply shape2_amap.
    apply shape2_chromatic_aberration, shape2_astype_int16, Hs. }
  assert (Hgu : rgb_u8 graded)
    by (unfold graded, contrast_brightness; apply rgb_u8_clip_uint8).
  unfold effect, effect_stages; simpl. fold graded.
  rewrite (film_grain_zero_noise graded h w Hgs Hgu).
  unfold sharpen. rewrite Hsharp.
  unfold overlay_scanlines. rewrite Hover, convert_RGB_RGBA.
  exact (apply_vignette_ones_mask pl graded h w Hgs Hgu Hm).
Qed.

Lemma effect_neutral_witness :
  let pl := {| width := 4; scanline_img := Demo.scan;
               vignette := ones_mask (F := IEEE) 1 4 |} in
  effect (P := plain_pillow) pl (zero_noise 1 4) Demo.frame
  = contrast_brightness (F := IEEE)
      (chromatic_aberration pl (astype_int16 Demo.frame)).
Proof.
  apply (effect_neutral plain_pillow
           {| width := 4; scanline_img := Demo.scan;
              vignette := ones_mask (F := IEEE) 1 4 |} Demo.frame 1 4);
    try reflexivity.
  - shape_ok.
  - u8_ok.
Defined.

(* ================================================================== *)
(** * Further properties: effect on the store, call after call *)



